(** * PolyTrack alert evaluation engine: the cron route handler

    A shallow embedding of the alert-evaluation route (the [POST] handler and
    the functions it calls) together with the properties of its evaluator,
    its caches and its batch loop; of the market-data module the handler
    takes its snapshots from; and of the rule builder, the dashboard actions
    and the payment confirmation route, which write the rows it reads.

    Conventions of the embedding.
    - A JavaScript [number] is an exact rational ([Q]); the literal [1.2] is
      [12 # 10].  Volumes, prices and thresholds are finite numbers; NaN,
      infinities and binary rounding are outside the model.
    - A JavaScript string is a [string]; a character is one code unit in the
      range U+0000..U+00FF (header values are byte strings).
    - [T | null] and [T | undefined] are [option T].
    - A [Map<string, V>] is a [gmap string V].
    - A promise is modelled by the result it settles to, since the handler
      awaits every promise before going on. *)

From Stdlib Require Import QArith Lqa Ascii String.
From stdpp Require Import gmap strings list pretty sorting.

(** ** Numbers *)

Definition num_gt (x y : Q) : bool := negb (Qle_bool x y).
Definition num_lt (x y : Q) : bool := num_gt y x.
Definition num_ge (x y : Q) : bool := Qle_bool y x.

(** ** Data model (src/types/index.ts and the rows of the alerts table) *)

Inductive AlertType := PRESET | CUSTOM.
Inductive AlertPresetType := WHALE | FLIP.

(** [metric] and the two operators are kept as strings: the rule is read from
    a JSON column and the evaluator has a fall-through branch for every value
    outside the declared unions. *)
Record AlertCondition := {
  metric : string;
  cond_operator : string;
  value : Q
}.

(** [conditions] may be missing at run time (the code reads it with [?.]). *)
Record AlertRule := {
  rule_operator : string;
  conditions : option (list AlertCondition)
}.

Record AlertRow := {
  alert_id : string;
  user_id : string;
  market_slug : string;
  alert_type : AlertType;
  preset_type : option AlertPresetType;
  custom_settings : option AlertRule;
  last_triggered_at : option string
}.

(** The snapshot type of the market-data module ([MarketOutcome] and
    [MarketData] of src/unnamed/part_003). *)
Record MarketOutcome := {
  outcome_id : string;
  label : string;
  price : Q;
  probability : Q;
  volume : Q
}.

Record MarketData := {
  slug : string;
  title : string;
  totalVolume : Q;
  outcomes : list MarketOutcome;
  favoriteOutcomeId : option string
}.

(** ** JavaScript truthiness of an optional string *)

Definition is_empty (s : string) : bool :=
  match s with EmptyString => true | String _ _ => false end.

Definition truthy (o : option string) : bool :=
  match o with
  | Some s => negb (is_empty s)
  | None => false
  end.

(** ** Custom rules *)

Definition evaluateCondition (condition : AlertCondition) (market : MarketData) : bool :=
  let primaryOutcome := head (outcomes market) in
  let metricValue :=
    if String.eqb (metric condition) "volume" then totalVolume market
    else if String.eqb (metric condition) "probability"
      then default 0%Q (probability <$> primaryOutcome)
    else if String.eqb (metric condition) "price"
      then default 0%Q (price <$> primaryOutcome)
    else 0%Q in
  if String.eqb (cond_operator condition) "gt"
  then num_gt metricValue (value condition)
  else num_lt metricValue (value condition).

Definition evaluateCustomRule (rule : AlertRule) (market : MarketData) : bool :=
  match conditions rule with
  | None | Some [] => false
  | Some cs =>
      let evaluator := fun condition => evaluateCondition condition market in
      if String.eqb (rule_operator rule) "AND"
      then forallb evaluator cs
      else existsb evaluator cs
  end.

(** ** JavaScript string operations used by the authorization check *)

Fixpoint string_drop (n : nat) (s : string) : string :=
  match n, s with
  | O, _ => s
  | S _, EmptyString => EmptyString
  | S n', String _ s' => string_drop n' s'
  end.

(** [js_remove pattern s] is [s.replace(pattern, '')]: the first occurrence
    of [pattern] (scanning from the left) is removed, later ones stay. *)
Fixpoint js_remove (pattern s : string) : string :=
  if String.prefix pattern s then string_drop (String.length pattern) s
  else match s with
       | EmptyString => EmptyString
       | String c s' => String c (js_remove pattern s')
       end.

(** The white space of [String.prototype.trim] among the code units below
    U+0100: TAB, LF, VT, FF, CR, SPACE and NO-BREAK SPACE. *)
Definition is_white_space (c : ascii) : bool :=
  match c with
  | "009" | "010" | "011" | "012" | "013" | " " | "160" => true
  | _ => false
  end%char.

Fixpoint trimStart (s : string) : string :=
  match s with
  | EmptyString => EmptyString
  | String c s' => if is_white_space c then trimStart s' else s
  end.

Fixpoint trimEnd (s : string) : string :=
  match s with
  | EmptyString => EmptyString
  | String c s' =>
      let t := trimEnd s' in
      if is_white_space c && is_empty t then EmptyString else String c t
  end.

Definition js_trim (s : string) : string := trimEnd (trimStart s).

(** ** Promises, collaborators and the state of the module *)

Definition Error := string.

Inductive Promise (A : Type) :=
| Fulfilled (a : A)
| Rejected (e : Error).
Arguments Fulfilled {A} a.
Arguments Rejected {A} e.

(** The [{ data, error }] answer of the data-store client and of the
    delivery client: a refused request is a fulfilled promise whose answer
    carries the error. *)
Record QueryResult (A : Type) := {
  data : A;
  error : option Error
}.
Arguments data {A} _.
Arguments error {A} _.

Record Email := {
  from : string;
  to : string;
  subject : string;
  html : string
}.

(** Everything the handler does to the outside world, in order. *)
Inductive Event :=
| SelectAlerts
| GetMarketData (slug : string)
| GetUserById (userId : string)
| EmailsSend (email : Email)
| UpdateLastTriggered (alertId : string)
| ConsoleError (args : list string).

(** The four module-level maps and the trace of external calls so far. *)
Record State := {
  marketCache : gmap string (Promise MarketData);
  favoriteOutcomeCache : gmap string (option string);
  volumeCache : gmap string Q;
  userEmailCache : gmap string (Promise (option string));
  trace : list Event
}.

(** The environment of the handler.  Each external call answers as a function
    of the trace before the call, so two calls with the same argument may
    answer differently. *)
Record Collaborators := {
  CRON_SECRET : option string;
  selectAlerts : list Event -> Promise (QueryResult (option (list AlertRow)));
  getMarketData : list Event -> string -> Promise MarketData;
  getUserById : list Event -> string -> Promise (QueryResult (option string));
  emailsSend : list Event -> Email -> Promise (QueryResult (option string));
  updateLastTriggered : list Event -> string -> Promise (QueryResult unit)
}.

Record Request := {
  authorization : option string
}.

Inductive Body :=
| ErrorBody (code : string)
| SuccessBody (processed : nat).

Record Response := {
  body : Body;
  status : nat
}.

(** ** The monad of the handler: state and exceptions *)

Inductive Completion (A : Type) :=
| Normal (a : A)
| Throw (e : Error).
Arguments Normal {A} a.
Arguments Throw {A} e.

Definition M (A : Type) : Type := State -> Completion A * State.

#[global] Instance M_ret : MRet M := fun A a st => (Normal a, st).

#[global] Instance M_bind : MBind M := fun A B f m st =>
  match m st with
  | (Normal a, st') => f a st'
  | (Throw e, st') => (Throw e, st')
  end.

Definition throw {A} (e : Error) : M A := fun st => (Throw e, st).

Definition try_catch {A} (m : M A) (handler : Error -> M A) : M A := fun st =>
  match m st with
  | (Normal a, st') => (Normal a, st')
  | (Throw e, st') => handler e st'
  end.

Definition await {A} (p : Promise A) : M A :=
  match p with
  | Fulfilled a => mret a
  | Rejected e => throw e
  end.

Definition read {A} (f : State -> A) : M A := fun st => (Normal (f st), st).

Definition emit (ev : Event) : State -> State := fun st =>
  {| marketCache := marketCache st;
     favoriteOutcomeCache := favoriteOutcomeCache st;
     volumeCache := volumeCache st;
     userEmailCache := userEmailCache st;
     trace := trace st ++ [ev] |}.

(** An external call: the answer depends on the history, the call is traced. *)
Definition call {A} (ev : Event) (answer : list Event -> A) : M A := fun st =>
  (Normal (answer (trace st)), emit ev st).

Definition console_error (args : list string) : M unit := fun st =>
  (Normal tt, emit (ConsoleError args) st).

Definition marketCache_set (k : string) (p : Promise MarketData) : M unit := fun st =>
  (Normal tt,
   {| marketCache := <[k := p]> (marketCache st);
      favoriteOutcomeCache := favoriteOutcomeCache st;
      volumeCache := volumeCache st;
      userEmailCache := userEmailCache st;
      trace := trace st |}).

Definition favoriteOutcomeCache_set (k : string) (v : option string) : M unit := fun st =>
  (Normal tt,
   {| marketCache := marketCache st;
      favoriteOutcomeCache := <[k := v]> (favoriteOutcomeCache st);
      volumeCache := volumeCache st;
      userEmailCache := userEmailCache st;
      trace := trace st |}).

Definition volumeCache_set (k : string) (v : Q) : M unit := fun st =>
  (Normal tt,
   {| marketCache := marketCache st;
      favoriteOutcomeCache := favoriteOutcomeCache st;
      volumeCache := <[k := v]> (volumeCache st);
      userEmailCache := userEmailCache st;
      trace := trace st |}).

Definition userEmailCache_set (k : string) (p : Promise (option string)) : M unit := fun st =>
  (Normal tt,
   {| marketCache := marketCache st;
      favoriteOutcomeCache := favoriteOutcomeCache st;
      volumeCache := volumeCache st;
      userEmailCache := <[k := p]> (userEmailCache st);
      trace := trace st |}).

(** ** The preset evaluators *)

Definition evaluateWhalePreset (alertId : string) (market : MarketData) : M bool :=
  cached ← read (fun st => volumeCache st !! alertId);
  let previousVolume := default (totalVolume market) cached in
  let volumeSpike := num_gt (totalVolume market) (previousVolume * (12 # 10))%Q in
  let simulatedLargeTrade :=
    existsb (fun outcome => num_ge (volume outcome) 10000%Q) (outcomes market) in
  volumeCache_set alertId (totalVolume market);;
  mret (volumeSpike || simulatedLargeTrade).

(** [favoriteOutcomeCache.get] answers [undefined] for a missing key and the
    stored string or [null] otherwise; both [undefined] and [null] are falsy
    and are merged by [mjoin]. *)
Definition evaluateFlipPreset (alertId : string) (market : MarketData) : M bool :=
  let currentFavorite := favoriteOutcomeId market in
  previousFavorite ← read (fun st => mjoin (favoriteOutcomeCache st !! alertId));
  favoriteOutcomeCache_set alertId currentFavorite;;
  if negb (truthy currentFavorite) || negb (truthy previousFavorite)
  then mret false
  else mret (negb (bool_decide (currentFavorite = previousFavorite))).

Definition evaluateAlert (alert : AlertRow) (market : MarketData) : M bool :=
  match alert_type alert with
  | PRESET =>
      match preset_type alert with
      | Some WHALE => evaluateWhalePreset (alert_id alert) market
      | Some FLIP => evaluateFlipPreset (alert_id alert) market
      | None => mret false
      end
  | CUSTOM =>
      match custom_settings alert with
      | None => mret false
      | Some rule => mret (evaluateCustomRule rule market)
      end
  end.

(** ** The route handler *)

Section Route.

(** The external world of one deployment. *)
Variable env : Collaborators.

(** The HTML body formats numbers with [toFixed] and [toLocaleString];
    it is kept abstract, only its arguments matter here. *)
Variable buildEmailHtml : AlertRow -> MarketData -> string.

Definition isCronAuthorized (request : Request) : M bool :=
  let secret := authorization request in
  let expectedSecret := CRON_SECRET env in
  if negb (truthy expectedSecret)
  then throw "CRON_SECRET env variable missing"
  else
    let token := (fun s => js_trim (js_remove "Bearer " s)) <$> secret in
    mret (bool_decide (token = expectedSecret)).

Definition fetchActiveAlerts : M (list AlertRow) :=
  answer ← call SelectAlerts (selectAlerts env);
  result ← await answer;
  match error result with
  | Some e => throw e
  | None => mret (default [] (data result))
  end.

Definition fetchMarket (slug : string) : M (Promise MarketData) :=
  cached ← read (fun st => marketCache st !! slug);
  match cached with
  | Some promise => mret promise
  | None =>
      promise ← call (GetMarketData slug) (fun tr => getMarketData env tr slug);
      marketCache_set slug promise;;
      mret promise
  end.

Definition resolveUserEmail (userId : string) : M (Promise (option string)) :=
  cached ← read (fun st => userEmailCache st !! userId);
  match cached with
  | Some promise => mret promise
  | None =>
      answer ← call (GetUserById userId) (fun tr => getUserById env tr userId);
      promise ←
        match answer with
        | Rejected e => mret (Rejected e)
        | Fulfilled result =>
            match error result with
            | Some e =>
                console_error ["Unable to fetch user email"; e];;
                mret (Fulfilled None)
            | None => mret (Fulfilled (data result))
            end
        end;
      userEmailCache_set userId promise;;
      mret promise
  end.

Definition markAlertTriggered (alertId : string) : M unit :=
  answer ← call (UpdateLastTriggered alertId)
                (fun tr => updateLastTriggered env tr alertId);
  result ← await answer;
  match error result with
  | Some e => console_error ["Failed to update alert trigger timestamp"; e]
  | None => mret tt
  end.

Definition buildEmailSubject (alert : AlertRow) (market : MarketData) : string :=
  match alert_type alert, preset_type alert with
  | PRESET, Some WHALE => "PolyTrack WHALE alert for " +:+ title market
  | PRESET, Some FLIP => "PolyTrack FLIP alert for " +:+ title market
  | _, _ => "PolyTrack custom alert for " +:+ title market
  end.

(** The body of the [for] loop of [POST], followed by the rest of the loop. *)
Fixpoint processAlerts (alerts : list AlertRow) (processed : nat) : M nat :=
  match alerts with
  | [] => mret processed
  | alert :: rest =>
      market ← (fetchMarket (market_slug alert) ≫= await);
      shouldTrigger ← evaluateAlert alert market;
      if negb shouldTrigger then processAlerts rest processed
      else
        recipient ← (resolveUserEmail (user_id alert) ≫= await);
        match recipient with
        | Some address =>
            if is_empty address then processAlerts rest processed
            else
              let email :=
                {| from := "PolyTrack Alerts <alerts@polytrack.app>";
                   to := address;
                   subject := buildEmailSubject alert market;
                   html := buildEmailHtml alert market |} in
              (call (EmailsSend email) (fun tr => emailsSend env tr email) ≫= await);;
              markAlertTriggered (alert_id alert);;
              processAlerts rest (processed + 1)
        | None => processAlerts rest processed
        end
  end.

Definition json (b : Body) (code : nat) : Response :=
  {| body := b; status := code |}.

Definition POST (request : Request) : M Response :=
  authorized ← isCronAuthorized request;
  if negb authorized
  then mret (json (ErrorBody "UNAUTHORIZED") 401)
  else
    try_catch
      (alerts ← fetchActiveAlerts;
       match alerts with
       | [] => mret (json (SuccessBody 0) 200)
       | _ :: _ =>
           processed ← processAlerts alerts 0;
           mret (json (SuccessBody processed) 200)
       end)
      (fun e =>
         console_error [e];;
         mret (json (ErrorBody "CRON_FAILED") 500)).

End Route.

(** * Notions of the specification *)

(** ** Presence of an identifier, large trade *)

(** An identifier is present when it is a non-empty string: [null],
    [undefined] and the empty string are the falsy values the code rejects. *)
Definition present (o : option string) : Prop :=
  exists s, o = Some s /\ s <> EmptyString.

Definition largeTrade (market : MarketData) : Prop :=
  exists outcome, outcome ∈ outcomes market /\ (10000 <= volume outcome)%Q.

(** ** The metric of a condition, in the words of the specification *)

Inductive MetricResolves (market : MarketData) : string -> Q -> Prop :=
| resolves_volume :
    MetricResolves market "volume" (totalVolume market)
| resolves_probability o rest :
    outcomes market = o :: rest ->
    MetricResolves market "probability" (probability o)
| resolves_price o rest :
    outcomes market = o :: rest ->
    MetricResolves market "price" (price o)
| resolves_probability_absent :
    outcomes market = [] -> MetricResolves market "probability" 0%Q
| resolves_price_absent :
    outcomes market = [] -> MetricResolves market "price" 0%Q
| resolves_unrecognized m :
    m <> "volume" -> m <> "probability" -> m <> "price" ->
    MetricResolves market m 0%Q.

(** ** Removing the first occurrence of a pattern, trimming *)

(** [t] is [s] without the first occurrence of [pattern], or [s] itself when
    [pattern] does not occur in it. *)
Inductive RemovedFirst (pattern s : string) : string -> Prop :=
| removed_none :
    (forall pre post, s <> pre +:+ pattern +:+ post) ->
    RemovedFirst pattern s s
| removed_first pre post :
    s = pre +:+ pattern +:+ post ->
    (forall pre' post', s = pre' +:+ pattern +:+ post' ->
       String.length pre <= String.length pre') ->
    RemovedFirst pattern s (pre +:+ post).

Fixpoint is_blank (s : string) : bool :=
  match s with
  | EmptyString => true
  | String c s' => is_white_space c && is_blank s'
  end.

Definition first_char (s : string) : option ascii :=
  match s with
  | EmptyString => None
  | String c _ => Some c
  end.

Fixpoint last_char (s : string) : option ascii :=
  match s with
  | EmptyString => None
  | String c EmptyString => Some c
  | String _ s' => last_char s'
  end.

Definition white (o : option ascii) : bool :=
  match o with
  | Some c => is_white_space c
  | None => false
  end.

(** [t] is [s] without the white space at its two ends. *)
Inductive Trimmed (s : string) : string -> Prop :=
| trimmed l t r :
    s = l +:+ t +:+ r ->
    is_blank l = true -> is_blank r = true ->
    white (first_char t) = false -> white (last_char t) = false ->
    Trimmed s t.

(** ** Credential of a request, side effects of a triggered alert *)

(** The credential carried by a request: the authorization header without
    its first ["Bearer "] and without surrounding white space. *)
Definition bearerCredential (request : Request) : option string :=
  (fun header => js_trim (js_remove "Bearer " header)) <$> authorization request.

(** The two side effects of a triggered alert. *)
Definition is_dispatch_or_persist (ev : Event) : bool :=
  match ev with
  | EmailsSend _ | UpdateLastTriggered _ => true
  | _ => false
  end.

(** ** Sequences of memoized lookups *)

(** A lookup made during a batch and the promise it is answered with. *)
Inductive Lookup :=
| FetchMarket (slug : string)
| ResolveUserEmail (userId : string).

Inductive Answer :=
| MarketAnswer (promise : Promise MarketData)
| EmailAnswer (promise : Promise (option string)).

Definition lookup_call (env : Collaborators) (c : Lookup) : M Answer :=
  match c with
  | FetchMarket slug =>
      promise ← fetchMarket env slug; mret (MarketAnswer promise)
  | ResolveUserEmail userId =>
      promise ← resolveUserEmail env userId; mret (EmailAnswer promise)
  end.

Fixpoint lookup_calls (env : Collaborators) (cs : list Lookup) : M (list Answer) :=
  match cs with
  | [] => mret []
  | c :: cs' =>
      r ← lookup_call env c;
      rs ← lookup_calls env cs';
      mret (r :: rs)
  end.

(** The memoized answer of a lookup, if any. *)
Definition cached (st : State) (c : Lookup) : option Answer :=
  match c with
  | FetchMarket slug => MarketAnswer <$> marketCache st !! slug
  | ResolveUserEmail userId => EmailAnswer <$> userEmailCache st !! userId
  end.

(** Whether an event is the upstream call that serves a lookup. *)
Definition is_upstream_call (c : Lookup) (ev : Event) : bool :=
  match c, ev with
  | FetchMarket slug, GetMarketData slug' => bool_decide (slug = slug')
  | ResolveUserEmail userId, GetUserById userId' => bool_decide (userId = userId')
  | _, _ => false
  end.

Definition upstream_calls (c : Lookup) (evs : list Event) : nat :=
  length (List.filter (is_upstream_call c) evs).

#[global] Instance Lookup_eq_dec : EqDecision Lookup.
Proof. solve_decision. Defined.

(** * Sample data *)

Definition empty_state : State :=
  {| marketCache := ∅; favoriteOutcomeCache := ∅; volumeCache := ∅;
     userEmailCache := ∅; trace := [] |}.

Definition sample_outcome (name : string) (p v : Q) : MarketOutcome :=
  {| outcome_id := name; label := name; price := p; probability := p; volume := v |}.

(** A market with one outcome above the large-trade threshold. *)
Definition busy_market : MarketData :=
  {| slug := "election"; title := "Election";
     totalVolume := 25000;
     outcomes := [sample_outcome "yes" (6 # 10) 15000; sample_outcome "no" (4 # 10) 9000];
     favoriteOutcomeId := Some "yes" |}.

(** A market without large outcome. *)
Definition quiet_market : MarketData :=
  {| slug := "weather"; title := "Weather";
     totalVolume := 100;
     outcomes := [sample_outcome "rain" (5 # 10) 60; sample_outcome "sun" (5 # 10) 40];
     favoriteOutcomeId := Some "rain" |}.

Definition whale_alert (id user : string) : AlertRow :=
  {| alert_id := id; user_id := user; market_slug := "election";
     alert_type := PRESET; preset_type := Some WHALE;
     custom_settings := None; last_triggered_at := None |}.

Definition two_alerts : list AlertRow :=
  [whale_alert "alert-1" "user-1"; whale_alert "alert-2" "user-2"].

Definition plain_html : AlertRow -> MarketData -> string :=
  fun _ _ => "<div></div>".

Definition authorized_request : Request :=
  {| authorization := Some "Bearer s3cret" |}.

(** Every collaborator answers; delivery and store work. *)
Definition healthy_env : Collaborators :=
  {| CRON_SECRET := Some "s3cret";
     selectAlerts := fun _ => Fulfilled {| data := Some two_alerts; error := None |};
     getMarketData := fun _ _ => Fulfilled busy_market;
     getUserById := fun _ _ =>
       Fulfilled {| data := Some "owner@example.org"; error := None |};
     emailsSend := fun _ _ => Fulfilled {| data := Some "message-1"; error := None |};
     updateLastTriggered := fun _ _ => Fulfilled {| data := tt; error := None |} |}.


(** The store reports an error on every trigger-timestamp update. *)
Definition failing_store_env : Collaborators :=
  {| CRON_SECRET := CRON_SECRET healthy_env;
     selectAlerts := selectAlerts healthy_env;
     getMarketData := getMarketData healthy_env;
     getUserById := getUserById healthy_env;
     emailsSend := emailsSend healthy_env;
     updateLastTriggered := fun _ _ =>
       Fulfilled {| data := tt; error := Some "row locked" |} |}.

(** The user directory knows no address. *)
Definition no_email_env : Collaborators :=
  {| CRON_SECRET := CRON_SECRET healthy_env;
     selectAlerts := selectAlerts healthy_env;
     getMarketData := getMarketData healthy_env;
     getUserById := fun _ _ => Fulfilled {| data := None; error := None |};
     emailsSend := emailsSend healthy_env;
     updateLastTriggered := updateLastTriggered healthy_env |}.

Definition alert_email (alert : AlertRow) (market : MarketData) (address : string) : Email :=
  {| from := "PolyTrack Alerts <alerts@polytrack.app>";
     to := address;
     subject := buildEmailSubject alert market;
     html := plain_html alert market |}.

Definition after_fetch (env : Collaborators) : State :=
  snd ((fetchMarket env "election" ≫= await) empty_state).

Definition after_evaluation (env : Collaborators) : State :=
  snd (evaluateAlert (whale_alert "alert-1" "user-1") busy_market (after_fetch env)).

Definition after_resolution (env : Collaborators) : State :=
  snd ((resolveUserEmail env "user-1" ≫= await) (after_evaluation env)).





(** The market service fails on its first request and would answer on any
    later one. *)
Definition flaky_market_env : Collaborators :=
  {| CRON_SECRET := CRON_SECRET healthy_env;
     selectAlerts := selectAlerts healthy_env;
     getMarketData := fun tr _ =>
       match tr with
       | [] => Rejected "market not found"
       | _ :: _ => Fulfilled busy_market
       end;
     getUserById := getUserById healthy_env;
     emailsSend := emailsSend healthy_env;
     updateLastTriggered := updateLastTriggered healthy_env |}.

(** The markets and conditions of the scenarios of the specification. *)
Definition market_with_volume (v : Q) : MarketData :=
  {| slug := "m"; title := "M"; totalVolume := v;
     outcomes := [sample_outcome "yes" (5 # 100) 10];
     favoriteOutcomeId := Some "yes" |}.

Definition market_with_favorite (favorite : string) : MarketData :=
  {| slug := "n"; title := "N"; totalVolume := 10;
     outcomes := [sample_outcome "outcome-1" (5 # 10) 5; sample_outcome "outcome-2" (5 # 10) 5];
     favoriteOutcomeId := Some favorite |}.

Definition two_conditions : list AlertCondition :=
  [ {| metric := "volume"; cond_operator := "gt"; value := 500 |};
    {| metric := "price"; cond_operator := "lt"; value := 1 # 10 |} ].

(** * The market-data module (src/unnamed/part_003) *)

(** ** Array.prototype.sort
    The sort of JavaScript is stable; for a consistent comparator its result
    is the one of any stable sort.  [insert_by] puts an element in front of
    the first element it does not have to follow. *)
Fixpoint insert_by {A} (compare : A -> A -> Q) (x : A) (l : list A) : list A :=
  match l with
  | [] => [x]
  | y :: l' =>
      if Qle_bool (compare x y) 0 then x :: y :: l'
      else y :: insert_by compare x l'
  end.

Definition js_sort {A} (compare : A -> A -> Q) (l : list A) : list A :=
  foldr (insert_by compare) [] l.

Module Polymarket.

Record GammaMarket := {
  market_id : string;
  question : string;
  market_volume : option Q;
  market_outcomes : option (list string);
  outcomePrices : option (list Q);
  outcomeVolumes : option (list Q)
}.

Record GammaEvent := {
  event_slug : string;
  event_title : string;
  markets : option (list GammaMarket)
}.

Record GammaEventResponse := {
  events : option (list GammaEvent)
}.

(** The answer of [fetch]: [ok], [status] and the promise of [json()]. *)
Record HttpResponse := {
  ok : bool;
  http_status : nat;
  json_body : Promise GammaEventResponse
}.

Definition POLYMARKET_BASE_URL : string := "https://gamma-api.polymarket.com/events".

Definition normalizeOutcome (market : GammaMarket) (index : nat) : MarketOutcome :=
  let label := default ("Outcome " +:+ pretty (index + 1))
                       (market_outcomes market ≫= (.!! index)) in
  let price := default 0%Q (outcomePrices market ≫= (.!! index)) in
  let volume := default 0%Q (outcomeVolumes market ≫= (.!! index)) in
  let probability := price in
  {| outcome_id := market_id market +:+ "-" +:+ pretty index;
     label := label;
     price := price;
     probability := probability;
     volume := volume |}.

(** The comparator given to [sort]: descending volume, then descending
    probability. *)
Definition compareOutcomes (a b : MarketOutcome) : Q :=
  if negb (Qeq_bool (volume b) (volume a))
  then (volume b - volume a)%Q
  else (probability b - probability a)%Q.

Definition pickFavorite (favorite : option MarketOutcome) (current : MarketOutcome)
    : option MarketOutcome :=
  match favorite with
  | None => Some current
  | Some f => if num_gt (probability current) (probability f) then Some current else Some f
  end.

Section GetMarketData.

(** [fetch] with the options of the module, as a function of the URL, and
    [encodeURIComponent]. *)
Variable fetch : string -> Promise HttpResponse.
Variable encodeURIComponent : string -> string.

Definition getMarketData (slug : string) : Promise MarketData :=
  let url := POLYMARKET_BASE_URL +:+ "?slug=" +:+ encodeURIComponent slug in
  match fetch url with
  | Rejected e => Rejected e
  | Fulfilled response =>
      if negb (ok response)
      then Rejected ("Polymarket request failed with status " +:+ pretty (http_status response))
      else
        match json_body response with
        | Rejected e => Rejected e
        | Fulfilled payload =>
            match events payload ≫= head with
            | None => Rejected ("Market with slug " +:+ slug +:+ " not found")
            | Some event =>
                match markets event ≫= head with
                | None => Rejected ("No markets available for slug " +:+ slug)
                | Some market =>
                    let totalOutcomes := default 0 (length <$> market_outcomes market) in
                    if Nat.eqb totalOutcomes 0
                    then Rejected ("Market " +:+ market_id market
                                   +:+ " does not contain outcomes data")
                    else
                      let normalizedOutcomes :=
                        normalizeOutcome market <$> seq 0 totalOutcomes in
                      let sortedOutcomes :=
                        take 2 (js_sort compareOutcomes normalizedOutcomes) in
                      let favoriteOutcome := foldl pickFavorite None sortedOutcomes in
                      let totalVolume :=
                        match market_volume market with
                        | Some v => v
                        | None =>
                            foldl (fun acc outcome => (acc + volume outcome)%Q) 0%Q
                                  sortedOutcomes
                        end in
                      Fulfilled
                        {| slug := event_slug event;
                           title := event_title event;
                           totalVolume := totalVolume;
                           outcomes := sortedOutcomes;
                           favoriteOutcomeId := outcome_id <$> favoriteOutcome |}
                end
            end
        end
  end.

End GetMarketData.

End Polymarket.

(** ** Order of the outcomes of a snapshot *)

(** [a] is not placed after [b] by the comparator of the module: it has the
    larger volume or, at equal volume, a probability at least as large. *)
Definition ranks_before (a b : MarketOutcome) : Prop :=
  (volume b < volume a)%Q \/
  ((volume b == volume a)%Q /\ (probability b <= probability a)%Q).

(** Outcomes the comparator does not tell apart. *)
Definition same_rank (a b : MarketOutcome) : bool :=
  Qeq_bool (volume a) (volume b) && Qeq_bool (probability a) (probability b).

(** ** Sample answer of the market service *)

Definition sample_gamma_market : Polymarket.GammaMarket :=
  {| Polymarket.market_id := "512";
     Polymarket.question := "Who wins?";
     Polymarket.market_volume := None;
     Polymarket.market_outcomes := Some ["Alice"; "Bob"; "Carol"];
     Polymarket.outcomePrices := Some [2 # 10; 5 # 10; 3 # 10];
     Polymarket.outcomeVolumes := Some [300%Q; 12000%Q; 12000%Q] |}.

Definition sample_http_response : Polymarket.HttpResponse :=
  {| Polymarket.ok := true;
     Polymarket.http_status := 200;
     Polymarket.json_body :=
       Fulfilled
         {| Polymarket.events :=
              Some [ {| Polymarket.event_slug := "who-wins";
                        Polymarket.event_title := "Who wins?";
                        Polymarket.markets := Some [sample_gamma_market] |} ] |} |}.

Definition sample_fetch : string -> Promise Polymarket.HttpResponse :=
  fun _ => Fulfilled sample_http_response.

(** The slugs of the samples need no escaping. *)
Definition sample_encode : string -> string := fun s => s.

Definition sample_snapshot : MarketData :=
  {| slug := "who-wins"; title := "Who wins?";
     totalVolume := 0 + 12000 + 12000;
     outcomes :=
       [ {| outcome_id := "512-1"; label := "Bob"; price := 5 # 10;
            probability := 5 # 10; volume := 12000 |};
         {| outcome_id := "512-2"; label := "Carol"; price := 3 # 10;
            probability := 3 # 10; volume := 12000 |} ];
     favoriteOutcomeId := Some "512-1" |}.

(** * The batch loop, one alert at a time *)

(** The body of the [for] loop of [POST] for one alert: the processed count
    after the alert. *)
Definition processAlert (env : Collaborators)
    (buildEmailHtml : AlertRow -> MarketData -> string)
    (alert : AlertRow) (processed : nat) : M nat :=
  market ← (fetchMarket env (market_slug alert) ≫= await);
  shouldTrigger ← evaluateAlert alert market;
  if negb shouldTrigger then mret processed
  else
    recipient ← (resolveUserEmail env (user_id alert) ≫= await);
    match recipient with
    | Some address =>
        if is_empty address then mret processed
        else
          let email :=
            {| from := "PolyTrack Alerts <alerts@polytrack.app>";
               to := address;
               subject := buildEmailSubject alert market;
               html := buildEmailHtml alert market |} in
          (call (EmailsSend email) (fun tr => emailsSend env tr email) ≫= await);;
          markAlertTriggered env (alert_id alert);;
          mret (processed + 1)
    | None => mret processed
    end.

(** The caches of two states agree. *)
Definition same_caches (st st' : State) : Prop :=
  marketCache st' = marketCache st /\
  favoriteOutcomeCache st' = favoriteOutcomeCache st /\
  volumeCache st' = volumeCache st /\
  userEmailCache st' = userEmailCache st.

Definition count_events (p : Event -> bool) (evs : list Event) : nat :=
  length (List.filter p evs).

Definition is_dispatch (ev : Event) : bool :=
  match ev with EmailsSend _ => true | _ => false end.

Definition is_persist (ev : Event) : bool :=
  match ev with UpdateLastTriggered _ => true | _ => false end.

(** The state after a sequence of invocations of the handler in one process. *)
Fixpoint serve (env : Collaborators) (buildEmailHtml : AlertRow -> MarketData -> string)
    (requests : list Request) (st : State) : State :=
  match requests with
  | [] => st
  | request :: later => serve env buildEmailHtml later (snd (POST env buildEmailHtml request st))
  end.

(** A notification that is well formed for the delivery provider. *)
Definition well_addressed (ev : Event) : Prop :=
  match ev with
  | EmailsSend email =>
      to email <> EmptyString /\ from email = "PolyTrack Alerts <alerts@polytrack.app>"
  | _ => True
  end.

(** A notification of a flip preset, by its subject. *)
Definition is_flip_email (ev : Event) : bool :=
  match ev with
  | EmailsSend email => String.prefix "PolyTrack FLIP alert for " (subject email)
  | _ => false
  end.

(** The favorite recorded for every alert is the one of the memoized snapshot
    of its market. *)
Definition favorites_in_sync (slugOf : string -> string) (st : State) : Prop :=
  forall alertId favorite,
    favoriteOutcomeCache st !! alertId = Some favorite ->
    exists market,
      marketCache st !! slugOf alertId = Some (Fulfilled market) /\
      favorite = favoriteOutcomeId market.

(** The entries of the two lookup caches of [st] are still in [st']. *)
Definition caches_kept (st st' : State) : Prop :=
  (forall k p, marketCache st !! k = Some p -> marketCache st' !! k = Some p) /\
  (forall k p, userEmailCache st !! k = Some p -> userEmailCache st' !! k = Some p).

(** ** Sample data for the handler *)

Definition flip_alert (id user : string) : AlertRow :=
  {| alert_id := id; user_id := user; market_slug := "election";
     alert_type := PRESET; preset_type := Some FLIP;
     custom_settings := None; last_triggered_at := None |}.

(** Two flip alerts on the sample market. *)
Definition flip_env : Collaborators :=
  {| CRON_SECRET := CRON_SECRET healthy_env;
     selectAlerts := fun _ =>
       Fulfilled {| data := Some [flip_alert "alert-3" "user-1"; flip_alert "alert-4" "user-2"];
                    error := None |};
     getMarketData := getMarketData healthy_env;
     getUserById := getUserById healthy_env;
     emailsSend := emailsSend healthy_env;
     updateLastTriggered := updateLastTriggered healthy_env |}.

(** The load of the alerts fails: the store answers with an error. *)
Definition failing_load_env : Collaborators :=
  {| CRON_SECRET := CRON_SECRET healthy_env;
     selectAlerts := fun _ =>
       Fulfilled {| data := None; error := Some "connection refused" |};
     getMarketData := getMarketData healthy_env;
     getUserById := getUserById healthy_env;
     emailsSend := emailsSend healthy_env;
     updateLastTriggered := updateLastTriggered healthy_env |}.

(** The table of the alerts is empty. *)
Definition no_alert_env : Collaborators :=
  {| CRON_SECRET := CRON_SECRET healthy_env;
     selectAlerts := fun _ => Fulfilled {| data := Some []; error := None |};
     getMarketData := getMarketData healthy_env;
     getUserById := getUserById healthy_env;
     emailsSend := emailsSend healthy_env;
     updateLastTriggered := updateLastTriggered healthy_env |}.

(** The market service is down. *)
Definition outage_env : Collaborators :=
  {| CRON_SECRET := CRON_SECRET healthy_env;
     selectAlerts := selectAlerts healthy_env;
     getMarketData := fun _ _ => Rejected "market not found";
     getUserById := getUserById healthy_env;
     emailsSend := emailsSend healthy_env;
     updateLastTriggered := updateLastTriggered healthy_env |}.

(** The state left by a run during the outage. *)
Definition after_failed_run : State :=
  snd (POST outage_env plain_html authorized_request empty_state).

(** The state left by a first whale evaluation on the quiet market. *)
Definition after_first_whale : State :=
  snd (evaluateWhalePreset "alert-1" quiet_market empty_state).

(** * The rule builder (src/unnamed/part_002) *)

Module AlertBuilder.

(** A condition of the form with the identifier React keys it by. *)
Record ConditionDraft := {
  draft_id : string;
  draft_metric : string;
  draft_operator : string;
  draft_value : Q
}.

(** [Partial<AlertCondition>]: the fields an input changes. *)
Record ConditionPatch := {
  patch_metric : option string;
  patch_operator : option string;
  patch_value : option Q
}.

(** [defaultCondition], given the identifier drawn by [generateId]. *)
Definition defaultCondition (id : string) : ConditionDraft :=
  {| draft_id := id; draft_metric := "volume"; draft_operator := "gt"; draft_value := 0 |}.

(** [{ ...condition, ...patch }] *)
Definition applyPatch (condition : ConditionDraft) (patch : ConditionPatch) : ConditionDraft :=
  {| draft_id := draft_id condition;
     draft_metric := default (draft_metric condition) (patch_metric patch);
     draft_operator := default (draft_operator condition) (patch_operator patch);
     draft_value := default (draft_value condition) (patch_value patch) |}.

(** The three state updates of the component, as functions of the previous
    list of conditions. *)
Definition handleConditionChange (id : string) (patch : ConditionPatch)
    (prev : list ConditionDraft) : list ConditionDraft :=
  (fun condition =>
     if String.eqb (draft_id condition) id then applyPatch condition patch else condition)
  <$> prev.

Definition handleAddCondition (newId : string) (prev : list ConditionDraft)
    : list ConditionDraft :=
  prev ++ [defaultCondition newId].

Definition handleRemoveCondition (id : string) (prev : list ConditionDraft)
    : list ConditionDraft :=
  if Nat.eqb (length prev) 1 then prev
  else List.filter (fun condition => negb (String.eqb (draft_id condition) id)) prev.

(** The rule serialized into the hidden input. *)
Definition currentRule (ruleOperator : string) (conditions : list ConditionDraft) : AlertRule :=
  {| rule_operator := ruleOperator;
     conditions :=
       Some ((fun draft =>
                {| metric := draft_metric draft;
                   cond_operator := draft_operator draft;
                   value := draft_value draft |}) <$> conditions) |}.

(** What the user does in the form. *)
Inductive Action :=
| Change (id : string) (patch : ConditionPatch)
| Add (newId : string)
| Remove (id : string).

Definition update (conditions : list ConditionDraft) (action : Action) : list ConditionDraft :=
  match action with
  | Change id patch => handleConditionChange id patch conditions
  | Add newId => handleAddCondition newId conditions
  | Remove id => handleRemoveCondition id conditions
  end.

(** Every identifier drawn for a new condition is new. *)
Fixpoint fresh_identifiers (actions : list Action) (conditions : list ConditionDraft) : Prop :=
  match actions with
  | [] => True
  | action :: later =>
      match action with
      | Add newId => newId ∉ draft_id <$> conditions
      | _ => True
      end /\ fresh_identifiers later (update conditions action)
  end.

End AlertBuilder.

(** * The dashboard actions (src/unnamed/part_001) and the payment
      confirmation route (src/app/api/paypal/success/route.ts) *)

Module Dashboard.

Definition MAX_FREE_ALERTS : nat := 1.

(** A row of [public.profiles] (src/supabase/init.sql), keyed by user. *)
Record Profile := {
  is_pro : bool;
  subscription_id : option string
}.

(** A JSON value: what [JSON.parse] yields and what the [jsonb] column
    [custom_settings] holds. *)
#[warnings="-register-all"] Inductive Json :=
| JNull
| JBool (b : bool)
| JNumber (q : Q)
| JString (s : string)
| JArray (items : list Json)
| JObject (fields : list (string * Json)).

(** The member of an object with a given name; of two members with the same
    name [JSON.parse] keeps the last. *)
Definition member (key : string) (fields : list (string * Json)) : option Json :=
  snd <$> last (List.filter (fun field => String.eqb (fst field) key) fields).

(** Truthiness of a parsed value: [null], [false], [0] and the empty string
    are falsy. *)
Definition json_truthy (j : Json) : bool :=
  match j with
  | JNull => false
  | JBool b => b
  | JNumber q => negb (Qeq_bool q 0)
  | JString s => negb (is_empty s)
  | JArray _ | JObject _ => true
  end.

(** [rule.conditions] on a parsed value: only an object has such a member. *)
Definition get_conditions (rule : Json) : option Json :=
  match rule with
  | JObject fields => member "conditions" fields
  | _ => None
  end.

(** Truthiness of [conditions?.length]: the length of a string or of an
    array, the member [length] of an object, [undefined] otherwise. *)
Definition length_truthy (conditions : option Json) : bool :=
  match conditions with
  | Some (JString s) => negb (is_empty s)
  | Some (JArray items) => negb (Nat.eqb (length items) 0)
  | Some (JObject fields) => default false (json_truthy <$> member "length" fields)
  | Some JNull | Some (JBool _) | Some (JNumber _) | None => false
  end.

(** A row of [public.alerts] (src/supabase/init.sql); [custom_settings] is a
    [jsonb] column. *)
Record StoredAlert := {
  alert_id : string;
  user_id : string;
  market_slug : string;
  alert_type : AlertType;
  preset_type : option AlertPresetType;
  custom_settings : option Json;
  last_triggered_at : option string
}.

(** The two tables, the paths revalidated and the console. *)
Record Site := {
  profiles : gmap string Profile;
  alerts : list StoredAlert;
  revalidated : list string;
  console : list (list string)
}.

(** An entry of a [FormData] or a value of a JSON body: a string or
    something else (a file, a number, an object). *)
Inductive Value :=
| Text (s : string)
| Other.

(** [String(value ?? '')] for a form entry. *)
Definition String_of (entry : option Value) : string :=
  match entry with
  | None => EmptyString
  | Some (Text s) => s
  | Some Other => "[object File]"
  end.

(** The preset named by a form entry, when it is ['WHALE'] or ['FLIP']. *)
Definition preset_of (entry : option Value) : option AlertPresetType :=
  match entry with
  | Some (Text s) =>
      if String.eqb s "WHALE" then Some WHALE
      else if String.eqb s "FLIP" then Some FLIP
      else None
  | _ => None
  end.

Definition alerts_of (userId : string) (rows : list StoredAlert) : list StoredAlert :=
  List.filter (fun row => String.eqb (user_id row) userId) rows.

Section Actions.

(** The store: the answer of the two queries of [canCreateAlert] ([None]
    when the query fails), whether an insert, a profile update or a delete
    goes through, and the identifier given to a new row. *)
Variable select_is_pro : Site -> string -> option bool.
Variable count_alerts : Site -> string -> option nat.
Variable insert_accepted : Site -> StoredAlert -> bool.
Variable gen_random_uuid : Site -> string.
Variable update_accepted : Site -> string -> bool.
Variable delete_accepted : Site -> string -> string -> bool.

(** [JSON.parse]: it throws or yields a value. *)
Variable JSON_parse : string -> Completion Json.

Definition canCreateAlert (site : Site) (userId : string) : bool :=
  if default false (select_is_pro site userId) then true
  else Nat.ltb (default 0 (count_alerts site userId)) MAX_FREE_ALERTS.

Definition insert (row : StoredAlert) (site : Site) : Site :=
  {| profiles := profiles site;
     alerts := if insert_accepted site row then alerts site ++ [row] else alerts site;
     revalidated := revalidated site;
     console := console site |}.

Definition revalidatePath (path : string) (site : Site) : Site :=
  {| profiles := profiles site;
     alerts := alerts site;
     revalidated := revalidated site ++ [path];
     console := console site |}.

Definition console_error (args : list string) (site : Site) : Site :=
  {| profiles := profiles site;
     alerts := alerts site;
     revalidated := revalidated site;
     console := console site ++ [args] |}.

(** [redirect] throws. *)
Definition redirect (path : string) (site : Site) : Completion unit * Site :=
  (Throw ("NEXT_REDIRECT " +:+ path), site).

Definition createPresetAlert (user : option string) (formData : gmap string Value)
    (site : Site) : Completion unit * Site :=
  match user with
  | None => redirect "/login" site
  | Some userId =>
      let marketSlug := js_trim (String_of (formData !! "market_slug")) in
      let presetType := preset_of (formData !! "preset_type") in
      match presetType with
      | None => (Normal tt, site)
      | Some preset =>
          if is_empty marketSlug then (Normal tt, site)
          else if negb (canCreateAlert site userId) then (Normal tt, site)
          else
            (Normal tt,
             revalidatePath "/dashboard"
               (insert {| alert_id := gen_random_uuid site;
                          user_id := userId;
                          market_slug := marketSlug;
                          alert_type := PRESET;
                          preset_type := Some preset;
                          custom_settings := None;
                          last_triggered_at := None |} site))
      end
  end.

Definition createCustomAlert (user : option string) (formData : gmap string Value)
    (site : Site) : Completion unit * Site :=
  match user with
  | None => redirect "/login" site
  | Some userId =>
      let marketSlug := js_trim (String_of (formData !! "market_slug")) in
      match formData !! "custom_settings" with
      | Some (Text rawRule) =>
          if is_empty marketSlug || is_empty rawRule then (Normal tt, site)
          else
            let '(rule, site1) :=
              match JSON_parse rawRule with
              | Normal parsed => (Some parsed, site)
              | Throw e => (None, console_error ["Invalid rule payload"; e] site)
              end in
            match rule with
            | Some rule =>
                if negb (json_truthy rule) || negb (length_truthy (get_conditions rule))
                then (Normal tt, site1)
                else if negb (canCreateAlert site1 userId) then (Normal tt, site1)
                else
                  (Normal tt,
                   revalidatePath "/dashboard"
                     (insert {| alert_id := gen_random_uuid site1;
                                user_id := userId;
                                market_slug := marketSlug;
                                alert_type := CUSTOM;
                                preset_type := None;
                                custom_settings := Some rule;
                                last_triggered_at := None |} site1))
            | None => (Normal tt, site1)
            end
      | _ => (Normal tt, site)
      end
  end.

Definition deleteAlert (user : option string) (formData : gmap string Value)
    (site : Site) : Completion unit * Site :=
  match user with
  | None => redirect "/login" site
  | Some userId =>
      match formData !! "alert_id" with
      | Some (Text alertId) =>
          if is_empty alertId then (Normal tt, site)
          else
            (Normal tt,
             revalidatePath "/dashboard"
               {| profiles := profiles site;
                  alerts :=
                    if delete_accepted site alertId userId
                    then
                      List.filter
                        (fun row => negb (String.eqb (alert_id row) alertId
                                          && String.eqb (user_id row) userId))
                        (alerts site)
                    else alerts site;
                  revalidated := revalidated site;
                  console := console site |})
      | _ => (Normal tt, site)
      end
  end.

(** [alertLimitReached] of [DashboardPage], from the profile and the alerts
    the page loads. *)
Definition alertLimitReached (profile : option Profile) (activeAlerts : list StoredAlert)
    : bool :=
  let isPro := default false (is_pro <$> profile) in
  negb isPro && Nat.leb MAX_FREE_ALERTS (length activeAlerts).

(** The answers of the payment confirmation route. *)
Inductive Confirmation :=
| Confirmed
| Refused (code : string) (status : nat).

(** The handler of the payment confirmation route, from the field
    [subscriptionID] of the body, the session user and the error of
    [getUser]. *)
Definition confirmSubscription (subscriptionID : option Value)
    (user : option string) (userError : option Error) (site : Site) : Confirmation * Site :=
  match subscriptionID with
  | Some (Text id) =>
      if is_empty id
      then (Refused "INVALID_SUBSCRIPTION_ID" 400, site)
      else
        match userError, user with
        | None, Some userId =>
            if update_accepted site userId
            then
              (Confirmed,
               {| profiles :=
                    alter (fun _ => {| is_pro := true; subscription_id := Some id |})
                          userId (profiles site);
                  alerts := alerts site;
                  revalidated := revalidated site;
                  console := console site |})
            else (Refused "PROFILE_UPDATE_FAILED" 500, site)
        | _, _ => (Refused "UNAUTHORIZED" 401, site)
        end
  | _ => (Refused "INVALID_SUBSCRIPTION_ID" 400, site)
  end.

(** What reaches the site: a dashboard action or a payment confirmation. *)
Inductive Request :=
| CreatePreset (user : option string) (formData : gmap string Value)
| CreateCustom (user : option string) (formData : gmap string Value)
| DeleteAlert (user : option string) (formData : gmap string Value)
| ConfirmSubscription (subscriptionID : option Value) (user : option string)
                      (userError : option Error).

Definition handle (site : Site) (request : Request) : Site :=
  match request with
  | CreatePreset user formData => snd (createPresetAlert user formData site)
  | CreateCustom user formData => snd (createCustomAlert user formData site)
  | DeleteAlert user formData => snd (deleteAlert user formData site)
  | ConfirmSubscription subscriptionID user userError =>
      snd (confirmSubscription subscriptionID user userError site)
  end.

End Actions.

(** The session user of a request. *)
Definition session (request : Request) : option string :=
  match request with
  | CreatePreset user _ | CreateCustom user _ | DeleteAlert user _
  | ConfirmSubscription _ user _ => user
  end.

(** The store answers the two queries of [canCreateAlert] from its tables. *)
Definition answers_from_tables
    (select_is_pro : Site -> string -> option bool)
    (count_alerts : Site -> string -> option nat) : Prop :=
  forall site userId,
    select_is_pro site userId = is_pro <$> profiles site !! userId /\
    count_alerts site userId = Some (length (alerts_of userId (alerts site))).

Definition pro (site : Site) (userId : string) : bool :=
  default false (is_pro <$> profiles site !! userId).

(** No free user is above the quota. *)
Definition within_quota (site : Site) : Prop :=
  forall userId,
    pro site userId = false ->
    length (alerts_of userId (alerts site)) <= MAX_FREE_ALERTS.

(** Reading a stored value at the types of src/types/index.ts: a condition
    is an object with a metric, an operator and a number; a rule is an object
    with an operator and an array of conditions. *)
Definition as_string (j : option Json) : option string :=
  match j with Some (JString s) => Some s | _ => None end.

Definition as_number (j : option Json) : option Q :=
  match j with Some (JNumber q) => Some q | _ => None end.

Definition as_condition (j : Json) : option AlertCondition :=
  match j with
  | JObject fields =>
      m ← as_string (member "metric" fields);
      o ← as_string (member "operator" fields);
      v ← as_number (member "value" fields);
      Some {| metric := m; cond_operator := o; value := v |}
  | _ => None
  end.

Definition as_rule (j : Json) : option AlertRule :=
  match j with
  | JObject fields =>
      o ← as_string (member "operator" fields);
      match member "conditions" fields with
      | Some (JArray items) =>
          cs ← mapM as_condition items;
          Some {| rule_operator := o; conditions := Some cs |}
      | _ => None
      end
  | _ => None
  end.

(** The invariant of the rows: the market slug is not empty; a preset alert
    carries a preset and no settings (the check [preset_requires_type] of the
    table); a custom alert carries no preset and an object whose member
    [conditions] has a truthy length, and when that object reads as a rule
    the rule has at least one condition. *)
Definition well_formed (row : StoredAlert) : Prop :=
  market_slug row <> EmptyString /\
  match alert_type row with
  | PRESET => preset_type row <> None /\ custom_settings row = None
  | CUSTOM =>
      preset_type row = None /\
      exists fields,
        custom_settings row = Some (JObject fields) /\
        length_truthy (member "conditions" fields) = true /\
        forall rule, as_rule (JObject fields) = Some rule ->
                     exists c cs, conditions rule = Some (c :: cs)
  end.

(** What a request can do to the site: it keeps the site, or removes rows,
    or adds one row of the session user for which [canCreateAlert] held, or
    makes the session user pro. *)
Inductive Effect
    (select_is_pro : Site -> string -> option bool)
    (count_alerts : Site -> string -> option nat)
    (insert_accepted : Site -> StoredAlert -> bool)
    (site : Site) (site' : Site) : Prop :=
| effect_rows_removed keep :
    profiles site' = profiles site ->
    alerts site' = List.filter keep (alerts site) ->
    Effect select_is_pro count_alerts insert_accepted site site'
| effect_row_added site1 row :
    profiles site1 = profiles site ->
    alerts site1 = alerts site ->
    profiles site' = profiles site ->
    alerts site' = alerts (insert insert_accepted row site1) ->
    canCreateAlert select_is_pro count_alerts site1 (user_id row) = true ->
    well_formed row ->
    Effect select_is_pro count_alerts insert_accepted site site'
| effect_upgraded userId profile :
    profiles site'
      = alter (fun _ => profile) userId (profiles site) ->
    is_pro profile = true ->
    alerts site' = alerts site ->
    Effect select_is_pro count_alerts insert_accepted site site'.

End Dashboard.

(** ** Sample site *)

Definition table_is_pro : Dashboard.Site -> string -> option bool :=
  fun site userId => Dashboard.is_pro <$> Dashboard.profiles site !! userId.

Definition table_count : Dashboard.Site -> string -> option nat :=
  fun site userId =>
    Some (length (Dashboard.alerts_of userId (Dashboard.alerts site))).

Definition accept_row : Dashboard.Site -> Dashboard.StoredAlert -> bool := fun _ _ => true.

Definition row_identifier : Dashboard.Site -> string :=
  fun site => "row-" +:+ pretty (length (Dashboard.alerts site)).

Definition accept_update : Dashboard.Site -> string -> bool := fun _ _ => true.

Definition accept_delete : Dashboard.Site -> string -> string -> bool := fun _ _ _ => true.

(** The text of a rule with one condition and the text of an object whose
    [conditions] is a string, with what [JSON.parse] yields for them. *)
Definition dq : string := String "034" EmptyString.

Definition rule_text : string :=
  "{" +:+ dq +:+ "operator" +:+ dq +:+ ":" +:+ dq +:+ "AND" +:+ dq +:+ ","
  +:+ dq +:+ "conditions" +:+ dq +:+ ":[{"
  +:+ dq +:+ "metric" +:+ dq +:+ ":" +:+ dq +:+ "volume" +:+ dq +:+ ","
  +:+ dq +:+ "operator" +:+ dq +:+ ":" +:+ dq +:+ "gt" +:+ dq +:+ ","
  +:+ dq +:+ "value" +:+ dq +:+ ":500}]}".

Definition rule_value : Dashboard.Json :=
  Dashboard.JObject
    [ ("operator", Dashboard.JString "AND");
      ("conditions",
       Dashboard.JArray
         [ Dashboard.JObject
             [ ("metric", Dashboard.JString "volume");
               ("operator", Dashboard.JString "gt");
               ("value", Dashboard.JNumber 500) ] ]) ].

Definition odd_text : string :=
  "{" +:+ dq +:+ "conditions" +:+ dq +:+ ":" +:+ dq +:+ "abc" +:+ dq +:+ "}".

Definition odd_value : Dashboard.Json :=
  Dashboard.JObject [ ("conditions", Dashboard.JString "abc") ].

Definition sample_parse : string -> Completion Dashboard.Json :=
  fun text =>
    if String.eqb text rule_text then Normal rule_value
    else if String.eqb text odd_text then Normal odd_value
    else if String.eqb text "null" then Normal Dashboard.JNull
    else Throw "Unexpected token".

(** One free user without alert. *)
Definition sample_site : Dashboard.Site :=
  {| Dashboard.profiles :=
       {[ "user-1" := {| Dashboard.is_pro := false; Dashboard.subscription_id := None |} ]};
     Dashboard.alerts := [];
     Dashboard.revalidated := [];
     Dashboard.console := [] |}.

Definition preset_form (marketSlug preset : string) : gmap string Dashboard.Value :=
  {[ "market_slug" := Dashboard.Text marketSlug; "preset_type" := Dashboard.Text preset ]}.

Definition custom_form (marketSlug text : string) : gmap string Dashboard.Value :=
  {[ "market_slug" := Dashboard.Text marketSlug; "custom_settings" := Dashboard.Text text ]}.

Definition sample_requests : list Dashboard.Request :=
  [ Dashboard.CreatePreset (Some "user-1") (preset_form " trump-wins " "WHALE");
    Dashboard.CreatePreset (Some "user-1") (preset_form "rain-tomorrow" "FLIP");
    Dashboard.ConfirmSubscription (Some (Dashboard.Text "I-123")) (Some "user-1") None;
    Dashboard.CreatePreset (Some "user-1") (preset_form "rain-tomorrow" "FLIP") ].

(** A subscriber and a free user, each with one alert. *)
Definition busy_site : Dashboard.Site :=
  {| Dashboard.profiles :=
       {[ "user-1" := {| Dashboard.is_pro := true; Dashboard.subscription_id := Some "I-123" |};
          "user-2" := {| Dashboard.is_pro := false; Dashboard.subscription_id := None |} ]};
     Dashboard.alerts :=
       [ {| Dashboard.alert_id := "row-0"; Dashboard.user_id := "user-2";
            Dashboard.market_slug := "election"; Dashboard.alert_type := PRESET;
            Dashboard.preset_type := Some WHALE; Dashboard.custom_settings := None;
            Dashboard.last_triggered_at := None |};
         {| Dashboard.alert_id := "row-1"; Dashboard.user_id := "user-1";
            Dashboard.market_slug := "weather"; Dashboard.alert_type := PRESET;
            Dashboard.preset_type := Some FLIP; Dashboard.custom_settings := None;
            Dashboard.last_triggered_at := None |} ];
     Dashboard.revalidated := [];
     Dashboard.console := [] |}.

(** The subscriber submits a rule, an object that is no rule, [null] and a
    text that does not parse, then tries to delete the alert of the other
    user and deletes one of their own. *)
Definition custom_requests : list Dashboard.Request :=
  [ Dashboard.CreateCustom (Some "user-1") (custom_form " trump-wins " rule_text);
    Dashboard.CreateCustom (Some "user-1") (custom_form "rain-tomorrow" odd_text);
    Dashboard.CreateCustom (Some "user-1") (custom_form "rain-tomorrow" "null");
    Dashboard.CreateCustom (Some "user-1") (custom_form "rain-tomorrow" "{");
    Dashboard.DeleteAlert (Some "user-1") {[ "alert_id" := Dashboard.Text "row-0" ]};
    Dashboard.DeleteAlert (Some "user-1") {[ "alert_id" := Dashboard.Text "row-1" ]} ].

Definition sample_drafts : list AlertBuilder.ConditionDraft :=
  [AlertBuilder.defaultCondition "c1"].

Definition sample_actions : list AlertBuilder.Action :=
  [ AlertBuilder.Remove "c1";
    AlertBuilder.Add "c2";
    AlertBuilder.Change "c2"
      {| AlertBuilder.patch_metric := Some "price";
         AlertBuilder.patch_operator := Some "lt";
         AlertBuilder.patch_value := Some (1 # 10) |};
    AlertBuilder.Remove "c1" ].

(** * Properties *)

(** ** Numbers and truthiness *)

Lemma num_gt_lt (x y : Q) : num_gt x y = true <-> (y < x)%Q.
Proof.
  unfold num_gt. rewrite negb_true_iff. split.
  - intros H. apply Qnot_le_lt. intros Hle.
    apply Qle_bool_iff in Hle. congruence.
  - intros H. destruct (Qle_bool x y) eqn:E; [|reflexivity].
    apply Qle_bool_iff in E. exfalso. exact (Qlt_not_le _ _ H E).
Qed.

Lemma num_lt_lt (x y : Q) : num_lt x y = true <-> (x < y)%Q.
Proof. unfold num_lt. apply num_gt_lt. Qed.

Lemma num_ge_le (x y : Q) : num_ge x y = true <-> (y <= x)%Q.
Proof. unfold num_ge. apply Qle_bool_iff. Qed.

(** A non-negative volume never exceeds 1.2 times itself. *)
Lemma no_spike_against_itself (v : Q) :
  (0 <= v)%Q -> num_gt v (v * (12 # 10)) = false.
Proof.
  intros Hv. destruct (num_gt v (v * (12 # 10))) eqn:E; [|reflexivity].
  apply num_gt_lt in E. exfalso.
  revert Hv E. unfold Qle, Qlt. destruct v as [n d]. simpl. nia.
Qed.

Lemma truthy_present (o : option string) : truthy o = true <-> present o.
Proof.
  unfold present. destruct o as [[|c s]|]; simpl; split;
    try discriminate; try reflexivity.
  - intros (s & [= <-] & Hs). congruence.
  - intros _. eexists. split; [reflexivity|discriminate].
  - intros (s & [=] & _).
Qed.

(** Unfolding of the monad, for running a computation on a state. *)
Ltac run :=
  unfold evaluateWhalePreset, evaluateFlipPreset, volumeCache_set,
    favoriteOutcomeCache_set, marketCache_set, userEmailCache_set,
    console_error, call, read, await, throw, try_catch,
    mbind, M_bind, mret, M_ret; simpl.

(** ** Conditions *)

Lemma metric_resolves (m : string) (market : MarketData) :
  exists v, MetricResolves market m v /\
    forall op threshold,
      evaluateCondition {| metric := m; cond_operator := op; value := threshold |} market
      = if String.eqb op "gt" then num_gt v threshold else num_lt v threshold.
Proof.
  unfold evaluateCondition. simpl.
  destruct (String.eqb_spec m "volume") as [->|Hv].
  { eexists. split; [constructor|reflexivity]. }
  destruct (String.eqb_spec m "probability") as [->|Hp].
  { destruct (outcomes market) as [|o rest] eqn:E; simpl.
    - exists 0%Q. split; [by apply resolves_probability_absent|reflexivity].
    - exists (probability o). split; [by eapply resolves_probability|reflexivity]. }
  destruct (String.eqb_spec m "price") as [->|Hq].
  { destruct (outcomes market) as [|o rest] eqn:E; simpl.
    - exists 0%Q. split; [by apply resolves_price_absent|reflexivity].
    - exists (price o). split; [by eapply resolves_price|reflexivity]. }
  exists 0%Q. split; [by apply resolves_unrecognized|reflexivity].
Qed.

(** C4: [evaluateCondition] resolves the metric as the specification says
    (volume: total volume; probability and price: the field of the first
    outcome, 0 when there is no outcome; any other metric: 0) and compares it
    with the threshold strictly: operator gt holds exactly when the value is
    greater than the threshold, operator lt exactly when it is smaller, and a
    value equal to the threshold satisfies neither. *)
Theorem evaluateCondition_spec (m : string) (threshold : Q) (market : MarketData) :
  exists v, MetricResolves market m v /\
    (evaluateCondition {| metric := m; cond_operator := "gt"; value := threshold |} market = true
       <-> (threshold < v)%Q) /\
    (evaluateCondition {| metric := m; cond_operator := "lt"; value := threshold |} market = true
       <-> (v < threshold)%Q) /\
    ((v == threshold)%Q ->
       evaluateCondition {| metric := m; cond_operator := "gt"; value := threshold |} market = false /\
       evaluateCondition {| metric := m; cond_operator := "lt"; value := threshold |} market = false).
Proof.
  destruct (metric_resolves m market) as (v & Hres & Heval).
  exists v. split; [exact Hres|].
  rewrite !Heval. simpl. split; [apply num_gt_lt|]. split; [apply num_lt_lt|].
  intros Heq. split.
  - destruct (num_gt v threshold) eqn:E; [|reflexivity].
    apply num_gt_lt in E. rewrite Heq in E. exfalso. exact (Qlt_irrefl _ E).
  - destruct (num_lt v threshold) eqn:E; [|reflexivity].
    apply num_lt_lt in E. rewrite Heq in E. exfalso. exact (Qlt_irrefl _ E).
Qed.

(** ** Custom rules *)

(** C3: a rule without conditions (empty or missing list) never triggers,
    whatever its combinator; with at least one condition an AND rule triggers
    exactly when every condition holds and an OR rule exactly when some
    condition holds; a CUSTOM alert without rule payload does not trigger and
    leaves the state alone. *)
Theorem evaluateCustomRule_spec
    (op : string) (c : AlertCondition) (cs : list AlertCondition) (market : MarketData) :
  evaluateCustomRule {| rule_operator := op; conditions := Some [] |} market = false /\
  evaluateCustomRule {| rule_operator := op; conditions := None |} market = false /\
  (evaluateCustomRule {| rule_operator := "AND"; conditions := Some (c :: cs) |} market = true
     <-> forall x, x ∈ c :: cs -> evaluateCondition x market = true) /\
  (evaluateCustomRule {| rule_operator := "OR"; conditions := Some (c :: cs) |} market = true
     <-> exists x, x ∈ c :: cs /\ evaluateCondition x market = true) /\
  (forall i u s p t st,
     evaluateAlert {| alert_id := i; user_id := u; market_slug := s;
                      alert_type := CUSTOM; preset_type := p;
                      custom_settings := None; last_triggered_at := t |} market st
     = (Normal false, st)).
Proof.
  split; [reflexivity|]. split; [reflexivity|]. split; [|split].
  - unfold evaluateCustomRule. cbn [conditions rule_operator].
    change (String.eqb "AND" "AND") with true. cbv iota beta.
    rewrite forallb_forall.
    split; intros H x Hx; apply H; by apply list_elem_of_In.
  - unfold evaluateCustomRule. cbn [conditions rule_operator].
    change (String.eqb "OR" "AND") with false. cbv iota beta.
    rewrite existsb_exists.
    split; intros (x & Hx & Hc); exists x; (split; [by apply list_elem_of_In|done]).
  - reflexivity.
Qed.

(** ** The flip preset *)

(** C5: the flip preset triggers exactly when the current favorite of the
    snapshot and the favorite recorded for the alert by its previous
    evaluation are both present (identifiers, that is non-empty strings) and
    differ; the first evaluation of an alert (nothing recorded) does not
    trigger, and neither does an evaluation whose favorite is the one
    recorded before. *)
Theorem evaluateFlipPreset_spec (alertId : string) (market : MarketData) (st : State) :
  exists b,
    fst (evaluateFlipPreset alertId market st) = Normal b /\
    (b = true <->
       exists current previous,
         favoriteOutcomeId market = Some current /\
         favoriteOutcomeCache st !! alertId = Some (Some previous) /\
         current <> EmptyString /\ previous <> EmptyString /\
         current <> previous) /\
    (favoriteOutcomeCache st !! alertId = None -> b = false) /\
    (favoriteOutcomeCache st !! alertId = Some (favoriteOutcomeId market) -> b = false).
Proof.
  run.
  set (cur := favoriteOutcomeId market).
  set (prev := mjoin (favoriteOutcomeCache st !! alertId)).
  exists (truthy cur && truthy prev && negb (bool_decide (cur = prev))).
  split; [by destruct (truthy cur), (truthy prev)|]. split; [|split].
  - rewrite !andb_true_iff, negb_true_iff, bool_decide_eq_false, !truthy_present.
    subst prev. unfold present. split.
    + intros [[(current & Hc & Hcne) (previous & Hp & Hpne)] Hdiff].
      exists current, previous.
      destruct (favoriteOutcomeCache st !! alertId) as [[p|]|]; simplify_eq/=.
      repeat split; try done. congruence.
    + intros (current & previous & Hc & Hp & Hcne & Hpne & Hdiff).
      rewrite Hp, Hc. simpl. repeat split; eauto. congruence.
  - intros Hnone. subst prev. rewrite Hnone. simpl.
    by rewrite andb_false_r.
  - intros Hsame. subst prev. rewrite Hsame. simpl.
    rewrite bool_decide_eq_true_2 by reflexivity. simpl. by rewrite andb_false_r.
Qed.

(** ** The state written by the presets *)

(** C6: a whale evaluation stores the snapshot's total volume for the alert
    and a flip evaluation stores the snapshot's favorite (or none), whatever
    the evaluation returns, also when reached through [evaluateAlert]. *)
Theorem evaluation_records_observation (alertId : string) (market : MarketData) (st : State) :
  volumeCache (snd (evaluateWhalePreset alertId market st)) !! alertId
    = Some (totalVolume market) /\
  favoriteOutcomeCache (snd (evaluateFlipPreset alertId market st)) !! alertId
    = Some (favoriteOutcomeId market) /\
  (forall u s r t,
     volumeCache (snd (evaluateAlert
       {| alert_id := alertId; user_id := u; market_slug := s; alert_type := PRESET;
          preset_type := Some WHALE; custom_settings := r; last_triggered_at := t |}
       market st)) !! alertId = Some (totalVolume market)) /\
  (forall u s r t,
     favoriteOutcomeCache (snd (evaluateAlert
       {| alert_id := alertId; user_id := u; market_slug := s; alert_type := PRESET;
          preset_type := Some FLIP; custom_settings := r; last_triggered_at := t |}
       market st)) !! alertId = Some (favoriteOutcomeId market)).
Proof.
  assert (Hw : volumeCache (snd (evaluateWhalePreset alertId market st)) !! alertId
               = Some (totalVolume market)).
  { run. apply lookup_insert_eq. }
  assert (Hf : favoriteOutcomeCache (snd (evaluateFlipPreset alertId market st)) !! alertId
               = Some (favoriteOutcomeId market)).
  { run.
    destruct (negb (truthy (favoriteOutcomeId market))
              || negb (truthy (mjoin (favoriteOutcomeCache st !! alertId))));
      simpl; apply lookup_insert_eq. }
  split; [exact Hw|]. split; [exact Hf|]. split; intros; [exact Hw|exact Hf].
Qed.

(** ** The whale preset *)

Lemma simulatedLargeTrade_spec (market : MarketData) :
  existsb (fun outcome => num_ge (volume outcome) 10000%Q) (outcomes market) = true
  <-> largeTrade market.
Proof.
  unfold largeTrade. rewrite existsb_exists.
  split; intros (o & Ho & Hv); exists o.
  - split; [by apply list_elem_of_In|by apply num_ge_le].
  - split; [by apply list_elem_of_In|by apply num_ge_le].
Qed.

(** C1, as amended: the first whale evaluation of an alert (no volume
    recorded) on a snapshot with non-negative total volume returns, and it
    triggers exactly when some outcome of the snapshot has volume at least
    10000; the volume-spike test alone never fires on a first observation. *)
Theorem evaluateWhalePreset_first (alertId : string) (market : MarketData) (st : State) :
  volumeCache st !! alertId = None ->
  (0 <= totalVolume market)%Q ->
  exists b,
    fst (evaluateWhalePreset alertId market st) = Normal b /\
    (b = true <-> largeTrade market).
Proof.
  intros Hnone Hvol. run. rewrite Hnone. simpl.
  rewrite no_spike_against_itself by exact Hvol. simpl.
  eexists. split; [reflexivity|]. apply simulatedLargeTrade_spec.
Qed.

(** ** Running the monad *)

Lemma bind_normal {A B} (m : M A) (f : A -> M B) (st st' : State) (a : A) :
  m st = (Normal a, st') -> (m ≫= f) st = f a st'.
Proof. intros H. unfold mbind, M_bind. by rewrite H. Qed.

Lemma bind_throw {A B} (m : M A) (f : A -> M B) (st st' : State) (e : Error) :
  m st = (Throw e, st') -> (m ≫= f) st = (Throw e, st').
Proof. intros H. unfold mbind, M_bind. by rewrite H. Qed.

(** ** The two memoized lookups *)

Section Lookups.

Variable env : Collaborators.

Lemma fetchMarket_hit (slug : string) (st : State) (promise : Promise MarketData) :
  marketCache st !! slug = Some promise ->
  fetchMarket env slug st = (Normal promise, st).
Proof. intros H. unfold fetchMarket. run. by rewrite H. Qed.

Lemma fetchMarket_miss (slug : string) (st : State) :
  marketCache st !! slug = None ->
  exists st',
    fetchMarket env slug st = (Normal (getMarketData env (trace st) slug), st') /\
    marketCache st' = <[slug := getMarketData env (trace st) slug]> (marketCache st) /\
    userEmailCache st' = userEmailCache st /\
    volumeCache st' = volumeCache st /\
    favoriteOutcomeCache st' = favoriteOutcomeCache st /\
    trace st' = trace st ++ [GetMarketData slug].
Proof.
  intros H. unfold fetchMarket. run. rewrite H.
  eexists. split; [reflexivity|]. by simpl.
Qed.

Lemma resolveUserEmail_hit (userId : string) (st : State) (promise : Promise (option string)) :
  userEmailCache st !! userId = Some promise ->
  resolveUserEmail env userId st = (Normal promise, st).
Proof. intros H. unfold resolveUserEmail. run. by rewrite H. Qed.

Lemma resolveUserEmail_miss (userId : string) (st : State) :
  userEmailCache st !! userId = None ->
  exists promise st' logs,
    resolveUserEmail env userId st = (Normal promise, st') /\
    userEmailCache st' = <[userId := promise]> (userEmailCache st) /\
    marketCache st' = marketCache st /\
    volumeCache st' = volumeCache st /\
    favoriteOutcomeCache st' = favoriteOutcomeCache st /\
    trace st' = trace st ++ GetUserById userId :: logs /\
    Forall (fun ev => exists args, ev = ConsoleError args) logs.
Proof.
  intros H. unfold resolveUserEmail. run. rewrite H.
  destruct (getUserById env (trace st) userId) as [[d [e|]]|e]; simpl.
  - eexists _, _, [_]. split; [reflexivity|]. simpl.
    rewrite <- app_assoc. simpl. repeat split; eauto.
  - eexists _, _, []. split; [reflexivity|]. by simpl.
  - eexists _, _, []. split; [reflexivity|]. by simpl.
Qed.

End Lookups.

(** ** Memoization over a sequence of lookups *)

Section Memoization.

Variable env : Collaborators.

Lemma upstream_calls_app (c : Lookup) (evs1 evs2 : list Event) :
  upstream_calls c (evs1 ++ evs2) = upstream_calls c evs1 + upstream_calls c evs2.
Proof. unfold upstream_calls. by rewrite List.filter_app, length_app. Qed.

Lemma upstream_calls_logs (c : Lookup) (logs : list Event) :
  Forall (fun ev => exists args, ev = ConsoleError args) logs ->
  upstream_calls c logs = 0.
Proof.
  unfold upstream_calls. induction 1 as [|ev logs [args ->] _ IH]; [done|].
  simpl. by destruct c.
Qed.

(** A lookup whose answer is memoized returns it and does nothing else. *)
Lemma lookup_call_hit (c : Lookup) (st : State) (r : Answer) :
  cached st c = Some r -> lookup_call env c st = (Normal r, st).
Proof.
  destruct c as [k|k]; simpl; intros H.
  - destruct (marketCache st !! k) as [p|] eqn:E; simplify_eq/=.
    by erewrite bind_normal by (by apply fetchMarket_hit).
  - destruct (userEmailCache st !! k) as [p|] eqn:E; simplify_eq/=.
    by erewrite bind_normal by (by apply resolveUserEmail_hit).
Qed.

(** A lookup without memoized answer calls upstream exactly once, memoizes
    the answer and leaves every other entry alone. *)
Lemma lookup_call_miss (c : Lookup) (st : State) :
  cached st c = None ->
  exists r st' evs,
    lookup_call env c st = (Normal r, st') /\
    cached st' c = Some r /\
    (forall c', c' <> c -> cached st' c' = cached st c') /\
    trace st' = trace st ++ evs /\
    upstream_calls c evs = 1 /\
    (forall c', c' <> c -> upstream_calls c' evs = 0).
Proof.
  destruct c as [k|k]; simpl; intros H.
  - destruct (marketCache st !! k) as [p|] eqn:E; simplify_eq/=.
    destruct (fetchMarket_miss env k st E) as (st' & Hrun & Hm & Hu & _ & _ & Ht).
    eexists _, st', _. split; [by erewrite bind_normal by exact Hrun|].
    split; [by rewrite Hm, lookup_insert_eq|].
    split; [|split; [exact Ht|split]].
    + intros [k'|k'] Hne; simpl; [|by rewrite Hu].
      rewrite Hm, lookup_insert_ne; [done|congruence].
    + unfold upstream_calls. simpl. by rewrite bool_decide_eq_true_2.
    + intros [k'|k'] Hne; unfold upstream_calls; simpl; [|done].
      rewrite bool_decide_eq_false_2; [done|congruence].
  - destruct (userEmailCache st !! k) as [p|] eqn:E; simplify_eq/=.
    destruct (resolveUserEmail_miss env k st E)
      as (p & st' & logs & Hrun & Hu & Hm & _ & _ & Ht & Hlogs).
    eexists _, st', _. split; [by erewrite bind_normal by exact Hrun|].
    split; [by rewrite Hu, lookup_insert_eq|].
    split; [|split; [exact Ht|split]].
    + intros [k'|k'] Hne; simpl; [by rewrite Hm|].
      rewrite Hu, lookup_insert_ne; [done|congruence].
    + change (GetUserById k :: logs) with ([GetUserById k] ++ logs).
      rewrite upstream_calls_app, (upstream_calls_logs _ _ Hlogs).
      unfold upstream_calls. simpl. by rewrite bool_decide_eq_true_2.
    + intros c' Hne.
      change (GetUserById k :: logs) with ([GetUserById k] ++ logs).
      rewrite upstream_calls_app, (upstream_calls_logs _ _ Hlogs).
      destruct c' as [k'|k']; unfold upstream_calls; simpl; [done|].
      rewrite bool_decide_eq_false_2; [done|congruence].
Qed.

(** The invariant of a sequence of lookups: it returns one answer per
    lookup, every answer is the entry memoized at the end, entries present
    at the start are kept, and a key is fetched upstream at most once, never
    when it was memoized at the start. *)
Lemma lookup_calls_inv (cs : list Lookup) (st : State) :
  exists rs st' evs,
    lookup_calls env cs st = (Normal rs, st') /\
    Forall2 (fun c r => cached st' c = Some r) cs rs /\
    (forall c r, cached st c = Some r -> cached st' c = Some r) /\
    trace st' = trace st ++ evs /\
    (forall c, upstream_calls c evs <= 1) /\
    (forall c, is_Some (cached st c) -> upstream_calls c evs = 0).
Proof.
  revert st. induction cs as [|c cs IH]; intros st.
  { exists [], st, []. simpl. rewrite app_nil_r. repeat split; eauto. }
  destruct (cached st c) as [r|] eqn:Hc.
  - destruct (IH st) as (rs & st' & evs & Hrun & Hall & Hmono & Ht & Hle & Hzero).
    exists (r :: rs), st', evs. split.
    { cbn [lookup_calls].
      erewrite bind_normal by (by apply lookup_call_hit).
      by erewrite bind_normal by exact Hrun. }
    split; [constructor; eauto|]. repeat split; eauto.
  - destruct (lookup_call_miss c st Hc)
      as (r & st1 & evs1 & Hrun1 & Hc1 & Hother & Ht1 & Hone & Hnone).
    destruct (IH st1) as (rs & st' & evs & Hrun & Hall & Hmono & Ht & Hle & Hzero).
    exists (r :: rs), st', (evs1 ++ evs). split.
    { cbn [lookup_calls].
      erewrite bind_normal by exact Hrun1.
      by erewrite bind_normal by exact Hrun. }
    split; [constructor; eauto|].
    split; [|split; [by rewrite Ht, Ht1, app_assoc|split]].
    + intros c' r' Hc'. apply Hmono. rewrite Hother; [done|congruence].
    + intros c'. rewrite upstream_calls_app.
      destruct (decide (c' = c)) as [->|Hne].
      * rewrite Hone, Hzero; [lia|by rewrite Hc1].
      * rewrite (Hnone _ Hne). apply Hle.
    + intros c' Hsome. rewrite upstream_calls_app.
      assert (Hne : c' <> c) by (intros ->; rewrite Hc in Hsome; by destruct Hsome).
      rewrite (Hnone _ Hne), Hzero; [done|]. by rewrite Hother.
Qed.

End Memoization.

(** C8: over any sequence of market fetches and recipient resolutions, from
    any state of the caches, every lookup returns (never throws), each market
    identifier and each user identifier is requested upstream at most once,
    and two lookups of the same key get the same answer, fulfilled or
    rejected, whatever upstream would answer on a later request. *)
Theorem lookups_memoized (env : Collaborators) (cs : list Lookup) (st : State) :
  exists rs st' evs,
    lookup_calls env cs st = (Normal rs, st') /\
    length rs = length cs /\
    trace st' = trace st ++ evs /\
    (forall slug, upstream_calls (FetchMarket slug) evs <= 1) /\
    (forall userId, upstream_calls (ResolveUserEmail userId) evs <= 1) /\
    (forall i j c ri rj,
       cs !! i = Some c -> cs !! j = Some c ->
       rs !! i = Some ri -> rs !! j = Some rj -> ri = rj).
Proof.
  destruct (lookup_calls_inv env cs st) as (rs & st' & evs & Hrun & Hall & _ & Ht & Hle & _).
  exists rs, st', evs. split; [exact Hrun|].
  split; [symmetry; by eapply Forall2_length|].
  split; [exact Ht|]. split; [eauto|]. split; [eauto|].
  intros i j c ri rj Hi Hj Hri Hrj.
  pose proof (Forall2_lookup_lr _ _ _ _ _ _ Hall Hi Hri) as H1.
  pose proof (Forall2_lookup_lr _ _ _ _ _ _ Hall Hj Hrj) as H2.
  simpl in H1, H2. congruence.
Qed.

(** ** The batch loop *)

Section Batch.

Variable env : Collaborators.
Variable buildEmailHtml : AlertRow -> MarketData -> string.

Lemma evaluateAlert_trace (alert : AlertRow) (market : MarketData) (st : State) :
  trace (snd (evaluateAlert alert market st)) = trace st.
Proof.
  unfold evaluateAlert.
  destruct (alert_type alert), (preset_type alert) as [[]|],
    (custom_settings alert); run; try reflexivity.
  all: by destruct (negb (truthy (favoriteOutcomeId market))
                    || negb (truthy (mjoin (favoriteOutcomeCache st !! alert_id alert)))).
Qed.

Lemma fetchMarket_await_trace (slug : string) (st st' : State) (r : Completion MarketData) :
  (fetchMarket env slug ≫= await) st = (r, st') ->
  exists evs, trace st' = trace st ++ evs /\
    Forall (fun ev => is_dispatch_or_persist ev = false) evs.
Proof.
  intros H. destruct (marketCache st !! slug) as [p|] eqn:E.
  - erewrite bind_normal in H by (by apply fetchMarket_hit).
    exists []. rewrite app_nil_r. split; [|constructor].
    destruct p; unfold await, throw, mret, M_ret in H; by simplify_eq.
  - destruct (fetchMarket_miss env slug st E) as (s1 & Hrun & _ & _ & _ & _ & Ht).
    erewrite bind_normal in H by exact Hrun.
    exists [GetMarketData slug]. split; [|by repeat constructor].
    destruct (getMarketData env (trace st) slug); unfold await, throw, mret, M_ret in H; by simplify_eq.
Qed.

Lemma resolveUserEmail_await_trace
    (userId : string) (st st' : State) (r : Completion (option string)) :
  (resolveUserEmail env userId ≫= await) st = (r, st') ->
  exists evs, trace st' = trace st ++ evs /\
    Forall (fun ev => is_dispatch_or_persist ev = false) evs.
Proof.
  intros H. destruct (userEmailCache st !! userId) as [p|] eqn:E.
  - erewrite bind_normal in H by (by apply resolveUserEmail_hit).
    exists []. rewrite app_nil_r. split; [|constructor].
    destruct p; unfold await, throw, mret, M_ret in H; by simplify_eq.
  - destruct (resolveUserEmail_miss env userId st E)
      as (p & s1 & logs & Hrun & _ & _ & _ & _ & Ht & Hlogs).
    erewrite bind_normal in H by exact Hrun.
    exists (GetUserById userId :: logs). split.
    + destruct p; unfold await, throw, mret, M_ret in H; by simplify_eq.
    + constructor; [done|]. eapply Forall_impl; [exact Hlogs|].
      by intros ev [args ->].
Qed.

(** C7: when a triggered alert has no recipient (resolution returns none,
    or an empty address), the loop goes on with the remaining alerts at the
    same processed count, and nothing done for that alert is a notification
    dispatch or a trigger-timestamp update. *)
Theorem recipient_none_skips
    (alert : AlertRow) (rest : list AlertRow) (processed : nat)
    (st st1 st2 st3 : State) (market : MarketData) (recipient : option string) :
  (fetchMarket env (market_slug alert) ≫= await) st = (Normal market, st1) ->
  evaluateAlert alert market st1 = (Normal true, st2) ->
  (resolveUserEmail env (user_id alert) ≫= await) st2 = (Normal recipient, st3) ->
  ~ present recipient ->
  processAlerts env buildEmailHtml (alert :: rest) processed st
    = processAlerts env buildEmailHtml rest processed st3 /\
  exists evs, trace st3 = trace st ++ evs /\
    Forall (fun ev => is_dispatch_or_persist ev = false) evs.
Proof.
  intros Hfetch Heval Hresolve Hnone. split.
  - cbn [processAlerts].
    erewrite bind_normal by exact Hfetch.
    erewrite bind_normal by exact Heval. cbn [negb].
    erewrite bind_normal by exact Hresolve.
    destruct recipient as [[|c s]|]; try reflexivity.
    exfalso. apply Hnone. eexists. split; [reflexivity|discriminate].
  - destruct (fetchMarket_await_trace _ _ _ _ Hfetch) as (evs1 & Ht1 & Hq1).
    destruct (resolveUserEmail_await_trace _ _ _ _ Hresolve) as (evs3 & Ht3 & Hq3).
    pose proof (evaluateAlert_trace alert market st1) as Ht2.
    rewrite Heval in Ht2. simpl in Ht2.
    exists (evs1 ++ evs3). split.
    + by rewrite Ht3, Ht2, Ht1, app_assoc.
    + by apply Forall_app.
Qed.

(** C9: with a configured secret, a request whose credential is missing or
    differs from it is answered UNAUTHORIZED (401) and the state, caches and
    trace of external calls included, is left as it was. *)
Theorem unauthorized_no_processing (request : Request) (st : State) (secret : string) :
  CRON_SECRET env = Some secret ->
  secret <> EmptyString ->
  bearerCredential request <> Some secret ->
  POST env buildEmailHtml request st
    = (Normal {| body := ErrorBody "UNAUTHORIZED"; status := 401 |}, st).
Proof.
  intros Hsecret Hne Hcred. unfold POST, isCronAuthorized.
  rewrite Hsecret. simpl.
  destruct secret as [|c s]; [done|]. simpl.
  unfold bearerCredential in Hcred.
  unfold mbind, M_bind, mret, M_ret.
  by rewrite bool_decide_eq_false_2.
Qed.

End Batch.

(** ** Failures of dispatch and persistence *)

Section Failures.

Variable env : Collaborators.
Variable buildEmailHtml : AlertRow -> MarketData -> string.

(** Whatever is thrown while alerts are loaded or processed is logged and
    answered with CRON_FAILED. *)
Lemma POST_batch_failure
    (request : Request) (st0 st1 st2 : State) (alerts : list AlertRow) (e : Error) :
  isCronAuthorized env request st0 = (Normal true, st0) ->
  fetchActiveAlerts env st0 = (Normal alerts, st1) ->
  processAlerts env buildEmailHtml alerts 0 st1 = (Throw e, st2) ->
  POST env buildEmailHtml request st0
    = (Normal {| body := ErrorBody "CRON_FAILED"; status := 500 |},
       emit (ConsoleError [e]) st2).
Proof.
  intros Hauth Hload Hloop. unfold POST.
  erewrite bind_normal by exact Hauth. cbn [negb].
  unfold try_catch. erewrite bind_normal by exact Hload.
  destruct alerts as [|a l].
  - simpl in Hloop. discriminate.
  - by erewrite bind_throw by exact Hloop.
Qed.


(** The loop at a triggered alert with a recipient: the dispatch, the update
    of the timestamp, and the rest of the loop. *)
Lemma processAlerts_dispatch
    (alert : AlertRow) (rest : list AlertRow) (processed : nat)
    (st st1 st2 st3 : State) (market : MarketData) (address : string) :
  (fetchMarket env (market_slug alert) ≫= await) st = (Normal market, st1) ->
  evaluateAlert alert market st1 = (Normal true, st2) ->
  (resolveUserEmail env (user_id alert) ≫= await) st2 = (Normal (Some address), st3) ->
  address <> EmptyString ->
  let email :=
    {| from := "PolyTrack Alerts <alerts@polytrack.app>";
       to := address;
       subject := buildEmailSubject alert market;
       html := buildEmailHtml alert market |} in
  processAlerts env buildEmailHtml (alert :: rest) processed st
  = ((call (EmailsSend email) (fun tr => emailsSend env tr email) ≫= await);;
     markAlertTriggered env (alert_id alert);;
     processAlerts env buildEmailHtml rest (processed + 1)) st3.
Proof.
  intros Hfetch Heval Hresolve Haddr email. cbn [processAlerts].
  erewrite bind_normal by exact Hfetch.
  erewrite bind_normal by exact Heval. cbn [negb].
  erewrite bind_normal by exact Hresolve.
  destruct address as [|c s]; [done|]. reflexivity.
Qed.

(** A dispatch or an update whose promise rejects is not handled per alert:
    the loop stops there with the error. *)
Lemma rejected_call_aborts
    (alert : AlertRow) (rest : list AlertRow) (processed : nat)
    (st st1 st2 st3 : State) (market : MarketData) (address : string) (e : Error) :
  (fetchMarket env (market_slug alert) ≫= await) st = (Normal market, st1) ->
  evaluateAlert alert market st1 = (Normal true, st2) ->
  (resolveUserEmail env (user_id alert) ≫= await) st2 = (Normal (Some address), st3) ->
  address <> EmptyString ->
  let email :=
    {| from := "PolyTrack Alerts <alerts@polytrack.app>";
       to := address;
       subject := buildEmailSubject alert market;
       html := buildEmailHtml alert market |} in
  let sent := emit (EmailsSend email) st3 in
  let updated := emit (UpdateLastTriggered (alert_id alert)) sent in
  (emailsSend env (trace st3) email = Rejected e ->
   processAlerts env buildEmailHtml (alert :: rest) processed st = (Throw e, sent)) /\
  (forall answer,
     emailsSend env (trace st3) email = Fulfilled answer ->
     updateLastTriggered env (trace sent) (alert_id alert) = Rejected e ->
     processAlerts env buildEmailHtml (alert :: rest) processed st = (Throw e, updated)).
Proof.
  intros Hfetch Heval Hresolve Haddr email sent updated.
  pose proof (processAlerts_dispatch alert rest processed st st1 st2 st3 market address
                Hfetch Heval Hresolve Haddr) as Hstep. cbv zeta in Hstep. fold email in Hstep.
  split.
  - intros Hsend. rewrite Hstep.
    unfold call, await, throw, mbind, M_bind. by rewrite Hsend.
  - intros answer Hsend Hupdate. rewrite Hstep.
    unfold markAlertTriggered, call, await, throw, mbind, M_bind, mret, M_ret.
    rewrite Hsend. fold sent. by rewrite Hupdate.
Qed.


End Failures.

(** ** String operations *)

Section Strings.

Lemma append_nil_l (s : string) : EmptyString +:+ s = s.
Proof. reflexivity. Qed.

Lemma append_cons (c : ascii) (a b : string) : String c a +:+ b = String c (a +:+ b).
Proof. reflexivity. Qed.

Lemma append_nil_r (s : string) : s +:+ EmptyString = s.
Proof. induction s as [|c s IH]; [done|]. by rewrite append_cons, IH. Qed.

Lemma append_assoc (a b c : string) : (a +:+ b) +:+ c = a +:+ b +:+ c.
Proof. induction a as [|x a IH]; [done|]. by rewrite !append_cons, IH. Qed.

Lemma append_inj (a b c d : string) :
  a +:+ b = c +:+ d -> String.length a = String.length c -> a = c /\ b = d.
Proof.
  revert c. induction a as [|x a IH]; intros [|y c]; try done.
  rewrite !append_cons. simpl.
  intros [= -> H] [= Hlen]. destruct (IH _ H Hlen) as [-> ->]. done.
Qed.

Lemma prefix_append (p s : string) :
  String.prefix p s = true <-> exists t, s = p +:+ t.
Proof.
  revert s. induction p as [|x p IH]; intros s.
  - destruct s; simpl; split; eauto.
  - destruct s as [|y s]; simpl.
    + split; [done|]. by intros (t & [=]).
    + destruct (Ascii.ascii_dec x y) as [->|Hne].
      * rewrite IH. split; intros (t & Ht); exists t.
        -- by rewrite append_cons, <- Ht.
        -- rewrite append_cons in Ht. congruence.
      * split; [done|]. intros (t & Ht). rewrite append_cons in Ht. congruence.
Qed.

Lemma string_drop_append (p t : string) : string_drop (String.length p) (p +:+ t) = t.
Proof. induction p as [|x p IH]; [done|]. rewrite append_cons. exact IH. Qed.

Lemma no_prefix_no_occurrence_at_0 (pattern s : string) :
  String.prefix pattern s = false -> forall post, s <> pattern +:+ post.
Proof.
  intros E post H.
  assert (String.prefix pattern s = true) by (apply prefix_append; eauto).
  congruence.
Qed.

Lemma js_remove_spec (pattern s : string) : RemovedFirst pattern s (js_remove pattern s).
Proof.
  induction s as [|c s IH].
  - cbn [js_remove]. destruct (String.prefix pattern EmptyString) eqn:E.
    + apply prefix_append in E as (t & Ht).
      destruct pattern as [|x p]; [|by rewrite append_cons in Ht]. simpl.
      apply (removed_first EmptyString EmptyString EmptyString EmptyString); [done|].
      intros; simpl; lia.
    + apply removed_none. intros [|x pre] post H; [|by rewrite append_cons in H].
      by eapply no_prefix_no_occurrence_at_0.
  - cbn [js_remove]. destruct (String.prefix pattern (String c s)) eqn:E.
    + apply prefix_append in E as (t & Ht). rewrite Ht at 2.
      rewrite string_drop_append.
      apply (removed_first pattern (String c s) EmptyString t); [done|].
      intros; simpl; lia.
    + pose proof (no_prefix_no_occurrence_at_0 _ _ E) as Hnot0.
      destruct IH as [Hnone|pre post Hocc Hmin].
      * apply removed_none. intros [|x pre] post H; [by eapply Hnot0|].
        rewrite append_cons in H. injection H as -> H. by eapply Hnone.
      * rewrite <- append_cons.
        apply (removed_first pattern (String c s) (String c pre) post).
        { by rewrite append_cons, <- Hocc. }
        intros [|x pre'] post' H; [by apply Hnot0 in H|].
        rewrite append_cons in H. injection H as -> H. apply Hmin in H. simpl. lia.
Qed.

Lemma RemovedFirst_unique (pattern s t1 t2 : string) :
  RemovedFirst pattern s t1 -> RemovedFirst pattern s t2 -> t1 = t2.
Proof.
  intros [H1|pre1 post1 Ho1 Hm1] [H2|pre2 post2 Ho2 Hm2]; [done| | |].
  - by apply H1 in Ho2.
  - by apply H2 in Ho1.
  - pose proof (Hm1 _ _ Ho2). pose proof (Hm2 _ _ Ho1).
    assert (Hlen : String.length pre1 = String.length pre2) by lia.
    rewrite Ho1 in Ho2. destruct (append_inj _ _ _ _ Ho2 Hlen) as [-> Hrest].
    assert (Hlen' : String.length pattern = String.length pattern) by done.
    destruct (append_inj _ _ _ _ Hrest Hlen') as [_ ->]. done.
Qed.

Lemma js_remove_unique (pattern s t : string) :
  RemovedFirst pattern s t -> js_remove pattern s = t.
Proof. intros H. eapply RemovedFirst_unique; [apply js_remove_spec|exact H]. Qed.

Lemma trimStart_spec (s : string) :
  exists l, s = l +:+ trimStart s /\ is_blank l = true /\
    white (first_char (trimStart s)) = false.
Proof.
  induction s as [|c s (l & Hl & Hb & Hf)]; [by exists EmptyString|].
  cbn [trimStart]. destruct (is_white_space c) eqn:E.
  - exists (String c l). rewrite append_cons, <- Hl. simpl. by rewrite E, Hb.
  - exists EmptyString. by simpl.
Qed.

Lemma trimEnd_spec (s : string) :
  exists r, s = trimEnd s +:+ r /\ is_blank r = true /\
    white (last_char (trimEnd s)) = false.
Proof.
  induction s as [|c s (r & Hr & Hb & Hl)]; [by exists EmptyString|].
  cbn [trimEnd]. destruct (trimEnd s) as [|d t] eqn:Et.
  - destruct (is_white_space c) eqn:E; simpl.
    + rewrite append_nil_l in Hr. subst r.
      exists (String c s). simpl. by rewrite E, Hb.
    + exists r. rewrite append_cons, <- Hr. by simpl.
  - rewrite andb_false_r. exists r. by rewrite append_cons, <- Hr.
Qed.

Lemma trimEnd_first_char (s : string) :
  white (first_char s) = false -> white (first_char (trimEnd s)) = false.
Proof.
  destruct s as [|c s]; [done|]. cbn [trimEnd].
  by destruct (is_white_space c && is_empty (trimEnd s)).
Qed.

Lemma js_trim_spec (s : string) : Trimmed s (js_trim s).
Proof.
  unfold js_trim.
  destruct (trimStart_spec s) as (l & Hl & Hbl & Hf).
  destruct (trimEnd_spec (trimStart s)) as (r & Hr & Hbr & Hlast).
  apply (trimmed s l _ r); auto using trimEnd_first_char. by rewrite <- Hr.
Qed.

Lemma trimStart_blank (r : string) : is_blank r = true -> trimStart r = EmptyString.
Proof.
  induction r as [|c r IH]; [done|]. simpl.
  intros [-> Hr]%andb_true_iff. auto.
Qed.

Lemma trimStart_blank_append (l u : string) :
  is_blank l = true -> trimStart (l +:+ u) = trimStart u.
Proof.
  induction l as [|c l IH]; [done|]. rewrite append_cons. simpl.
  intros [Hc Hl]%andb_true_iff. rewrite Hc. auto.
Qed.

Lemma trimStart_clean (u : string) : white (first_char u) = false -> trimStart u = u.
Proof. destruct u as [|c u]; [done|]. simpl. by intros ->. Qed.

Lemma trimEnd_blank (r : string) : is_blank r = true -> trimEnd r = EmptyString.
Proof.
  induction r as [|c r IH]; [done|]. simpl.
  intros [-> Hr]%andb_true_iff. by rewrite IH.
Qed.

Lemma trimEnd_append_blank (t r : string) :
  is_blank r = true -> white (last_char t) = false -> trimEnd (t +:+ r) = t.
Proof.
  intros Hr. induction t as [|c t IH]; intros Hlast.
  - by apply trimEnd_blank.
  - rewrite append_cons. cbn [trimEnd]. destruct t as [|d t].
    + rewrite IH by done. simpl in Hlast. by rewrite Hlast.
    + rewrite IH by exact Hlast. by rewrite andb_false_r.
Qed.

Lemma js_trim_unique (s t : string) : Trimmed s t -> js_trim s = t.
Proof.
  intros [l t' r -> Hl Hr Hfirst Hlast]. unfold js_trim.
  rewrite trimStart_blank_append by exact Hl.
  destruct t' as [|c t'].
  - rewrite append_nil_l, trimStart_blank by exact Hr. done.
  - rewrite trimStart_clean by (by rewrite append_cons).
    by apply trimEnd_append_blank.
Qed.

End Strings.

(** ** Authorization *)

(** C10: with a configured secret, the check returns, and it accepts the
    request exactly when the authorization header, once the first occurrence
    of ["Bearer "] is removed and the surrounding white space is trimmed, is
    the secret; so a header without ["Bearer "] whose trimmed content is the
    secret is accepted as well. *)
Theorem isCronAuthorized_spec
    (env : Collaborators) (request : Request) (st : State) (secret : string) :
  CRON_SECRET env = Some secret ->
  secret <> EmptyString ->
  exists b,
    isCronAuthorized env request st = (Normal b, st) /\
    (b = true <->
       exists header stripped,
         authorization request = Some header /\
         RemovedFirst "Bearer " header stripped /\
         Trimmed stripped secret) /\
    (forall header,
       authorization request = Some header ->
       (forall pre post, header <> pre +:+ "Bearer " +:+ post) ->
       Trimmed header secret ->
       b = true).
Proof.
  intros Hsecret Hne. unfold isCronAuthorized. rewrite Hsecret.
  destruct secret as [|c s]; [done|]. cbn [truthy is_empty negb].
  eexists. split; [reflexivity|].
  rewrite bool_decide_eq_true.
  assert (Hiff :
    (fun h => js_trim (js_remove "Bearer " h)) <$> authorization request = Some (String c s)
    <-> exists header stripped,
          authorization request = Some header /\
          RemovedFirst "Bearer " header stripped /\
          Trimmed stripped (String c s)).
  { destruct (authorization request) as [h|]; simpl; split.
    - intros [= H]. exists h, (js_remove "Bearer " h).
      split; [done|]. split; [apply js_remove_spec|].
      rewrite <- H. apply js_trim_spec.
    - intros (header & stripped & [= <-] & Hrem & Htrim).
      apply js_remove_unique in Hrem. apply js_trim_unique in Htrim.
      by rewrite Hrem, Htrim.
    - done.
    - by intros (header & stripped & [=] & _). }
  split; [exact Hiff|].
  intros header Hheader Hnone Htrim. apply bool_decide_eq_true, Hiff.
  exists header, header. split; [done|]. split; [by apply removed_none|done].
Qed.

(** * Sample runs *)

(** C1, counterexample: the very first whale evaluation of an alert triggers
    when an outcome of the snapshot has volume 15000. *)
Lemma first_whale_observation_triggers :
  volumeCache empty_state !! "alert-1" = None /\
  fst (evaluateWhalePreset "alert-1" busy_market empty_state) = Normal true /\
  ~ (forall alertId market st,
       volumeCache st !! alertId = None ->
       fst (evaluateWhalePreset alertId market st) = Normal false).
Proof.
  split; [reflexivity|]. split; [reflexivity|].
  intros H. specialize (H "alert-1" busy_market empty_state eq_refl).
  vm_compute in H. discriminate.
Qed.

(** A first whale evaluation on a quiet market with volume 100. *)
Lemma evaluateWhalePreset_first_witness :
  exists b,
    fst (evaluateWhalePreset "alert-1" quiet_market empty_state) = Normal b /\
    (b = true <-> largeTrade quiet_market).
Proof.
  apply evaluateWhalePreset_first; [reflexivity|vm_compute; discriminate].
Defined.



(** With the failing store the first alert is notified, the error of the
    update is logged and the loop goes on with the second alert. *)
Example persistence_error_is_logged :
  processAlerts failing_store_env plain_html two_alerts 0 empty_state
  = processAlerts failing_store_env plain_html [whale_alert "alert-2" "user-2"] (0 + 1)
      (emit (ConsoleError ["Failed to update alert trigger timestamp"; "row locked"])
         (emit (UpdateLastTriggered "alert-1")
            (emit (EmailsSend (alert_email (whale_alert "alert-1" "user-1") busy_market
                                 "owner@example.org"))
               (after_resolution failing_store_env)))).
Proof. reflexivity. Qed.

(** With the failing store both alerts are still notified and counted. *)
Example persistence_errors_do_not_fail_run :
  fst (POST failing_store_env plain_html authorized_request empty_state)
  = Normal {| body := SuccessBody 2; status := 200 |}.
Proof. vm_compute. reflexivity. Qed.

(** Without address the first alert is skipped and the loop goes on. *)
Lemma recipient_none_skips_witness :
  processAlerts no_email_env plain_html two_alerts 0 empty_state
    = processAlerts no_email_env plain_html [whale_alert "alert-2" "user-2"] 0
        (after_resolution no_email_env) /\
  exists evs, trace (after_resolution no_email_env) = trace empty_state ++ evs /\
    Forall (fun ev => is_dispatch_or_persist ev = false) evs.
Proof.
  refine (recipient_none_skips no_email_env plain_html
    (whale_alert "alert-1" "user-1") [whale_alert "alert-2" "user-2"] 0 empty_state
    (after_fetch no_email_env) (after_evaluation no_email_env)
    (after_resolution no_email_env) busy_market None _ _ _ _).
  - reflexivity.
  - reflexivity.
  - reflexivity.
  - intros (s & Hs & _). discriminate.
Defined.

(** Without any address the run succeeds with nothing processed. *)
Example no_recipient_run :
  fst (POST no_email_env plain_html authorized_request empty_state)
    = Normal {| body := SuccessBody 0; status := 200 |} /\
  trace (snd (POST no_email_env plain_html authorized_request empty_state))
    = [SelectAlerts; GetMarketData "election"; GetUserById "user-1"; GetUserById "user-2"].
Proof. split; vm_compute; reflexivity. Qed.

(** A wrong credential and a missing header are both turned away. *)
Lemma unauthorized_no_processing_witness :
  POST healthy_env plain_html {| authorization := Some "Bearer wrong" |} empty_state
    = (Normal {| body := ErrorBody "UNAUTHORIZED"; status := 401 |}, empty_state) /\
  POST healthy_env plain_html {| authorization := None |} empty_state
    = (Normal {| body := ErrorBody "UNAUTHORIZED"; status := 401 |}, empty_state).
Proof.
  split.
  - apply (unauthorized_no_processing healthy_env plain_html
             {| authorization := Some "Bearer wrong" |} empty_state "s3cret").
    + reflexivity.
    + discriminate.
    + vm_compute. discriminate.
  - apply (unauthorized_no_processing healthy_env plain_html
             {| authorization := None |} empty_state "s3cret").
    + reflexivity.
    + discriminate.
    + vm_compute. discriminate.
Defined.

(** The check on a header that holds the raw secret. *)
Lemma isCronAuthorized_spec_witness :
  exists b,
    isCronAuthorized healthy_env {| authorization := Some "s3cret" |} empty_state
      = (Normal b, empty_state) /\
    (b = true <->
       exists header stripped,
         Some "s3cret" = Some header /\
         RemovedFirst "Bearer " header stripped /\
         Trimmed stripped "s3cret") /\
    (forall header,
       Some "s3cret" = Some header ->
       (forall pre post, header <> pre +:+ "Bearer " +:+ post) ->
       Trimmed header "s3cret" ->
       b = true).
Proof.
  apply (isCronAuthorized_spec healthy_env {| authorization := Some "s3cret" |}
           empty_state "s3cret"); [reflexivity|discriminate].
Defined.

(** The raw secret, the prefixed secret and a padded one are all accepted. *)
Example raw_secret_accepted :
  fst (isCronAuthorized healthy_env {| authorization := Some "s3cret" |} empty_state)
    = Normal true /\
  fst (isCronAuthorized healthy_env {| authorization := Some "Bearer s3cret" |} empty_state)
    = Normal true /\
  fst (isCronAuthorized healthy_env {| authorization := Some "  Bearer s3cret " |} empty_state)
    = Normal true /\
  fst (isCronAuthorized healthy_env {| authorization := Some "Bearer Bearer s3cret" |} empty_state)
    = Normal false.
Proof. repeat split; vm_compute; reflexivity. Qed.

(** ** The scenarios of the specification *)

(** Alert A: volumes 100 then 130, the second evaluation triggers; with 120
    it does not. *)
Example scenario_whale :
  fst ((evaluateWhalePreset "A" (market_with_volume 100);;
        evaluateWhalePreset "A" (market_with_volume 130)) empty_state) = Normal true /\
  fst ((evaluateWhalePreset "A" (market_with_volume 100);;
        evaluateWhalePreset "A" (market_with_volume 120)) empty_state) = Normal false /\
  fst (evaluateWhalePreset "A" (market_with_volume 100) empty_state) = Normal false.
Proof. repeat split; vm_compute; reflexivity. Qed.

(** Alert B: favorites outcome-1 then outcome-2, the second evaluation
    triggers; with the same favorite twice it does not. *)
Example scenario_flip :
  fst ((evaluateFlipPreset "B" (market_with_favorite "outcome-1");;
        evaluateFlipPreset "B" (market_with_favorite "outcome-2")) empty_state) = Normal true /\
  fst ((evaluateFlipPreset "B" (market_with_favorite "outcome-1");;
        evaluateFlipPreset "B" (market_with_favorite "outcome-1")) empty_state) = Normal false /\
  fst (evaluateFlipPreset "B" (market_with_favorite "outcome-1") empty_state) = Normal false.
Proof. repeat split; vm_compute; reflexivity. Qed.

(** Alerts C and D: the OR rule triggers through its second condition, the
    AND rule does not. *)
Example scenario_custom :
  evaluateCustomRule {| rule_operator := "OR"; conditions := Some two_conditions |}
    (market_with_volume 10) = true /\
  evaluateCustomRule {| rule_operator := "AND"; conditions := Some two_conditions |}
    (market_with_volume 10) = false.
Proof. split; reflexivity. Qed.

(** ** Memoization of a failed fetch *)

(** The first fetch of a market fails; the second fetch of the same market
    gets the same rejected promise although upstream would now answer, and
    upstream is asked once. *)
Example failed_fetch_is_not_retried :
  fst (lookup_calls flaky_market_env
         [FetchMarket "election"; ResolveUserEmail "user-1"; FetchMarket "election"]
         empty_state)
    = Normal [MarketAnswer (Rejected "market not found");
              EmailAnswer (Fulfilled (Some "owner@example.org"));
              MarketAnswer (Rejected "market not found")] /\
  trace (snd (lookup_calls flaky_market_env
                [FetchMarket "election"; ResolveUserEmail "user-1"; FetchMarket "election"]
                empty_state))
    = [GetMarketData "election"; GetUserById "user-1"] /\
  getMarketData flaky_market_env [GetMarketData "election"; GetUserById "user-1"] "election"
    = Fulfilled busy_market.
Proof. repeat split; vm_compute; reflexivity. Qed.

(** * Properties of the market-data module *)

(** ** Sorting with a comparator *)

Section Sort.

Context {A : Type} (compare : A -> A -> Q).

Lemma insert_by_Permutation (x : A) (l : list A) : insert_by compare x l ≡ₚ x :: l.
Proof.
  induction l as [|y l IH]; [done|]. simpl.
  destruct (Qle_bool (compare x y) 0); [done|].
  rewrite IH. apply Permutation_swap.
Qed.

Lemma js_sort_Permutation (l : list A) : js_sort compare l ≡ₚ l.
Proof.
  induction l as [|x l IH]; [done|]. unfold js_sort in *. simpl.
  by rewrite insert_by_Permutation, IH.
Qed.

(** The sort is stable: the elements of a class whose members need not
    follow one another keep their order. *)
Lemma insert_by_filter (P : A -> bool) (x : A) (l : list A) :
  (forall y, P x = true -> P y = true -> (compare x y <= 0)%Q) ->
  List.filter P (insert_by compare x l) = List.filter P (x :: l).
Proof.
  intros Hclass. induction l as [|y l IH]; [done|]. simpl.
  destruct (Qle_bool (compare x y) 0) eqn:E; [done|].
  simpl in *. rewrite IH. destruct (P x) eqn:Hx; [|done].
  destruct (P y) eqn:Hy; [|done].
  apply Hclass in Hy; [|done]. apply Qle_bool_iff in Hy. congruence.
Qed.

Lemma js_sort_filter (P : A -> bool) (l : list A) :
  (forall x y, P x = true -> P y = true -> (compare x y <= 0)%Q) ->
  List.filter P (js_sort compare l) = List.filter P l.
Proof.
  intros Hclass. induction l as [|x l IH]; [done|].
  unfold js_sort in *. simpl.
  rewrite insert_by_filter by (intros; by apply Hclass). simpl. by rewrite IH.
Qed.

Variable R : relation A.
Hypothesis R_compare : forall x y, R x y <-> (compare x y <= 0)%Q.
Hypothesis R_total : forall x y, R x y \/ R y x.

Lemma Sorted_insert_by (x : A) (l : list A) :
  Sorted R l -> Sorted R (insert_by compare x l).
Proof.
  induction 1 as [|y l Hsorted IH Hhd]; simpl; [by repeat constructor|].
  destruct (Qle_bool (compare x y) 0) eqn:E.
  - apply Qle_bool_iff, R_compare in E. by repeat constructor.
  - assert (R y x) as Hyx.
    { destruct (R_total x y) as [Hxy|]; [|done].
      apply R_compare, Qle_bool_iff in Hxy. congruence. }
    constructor; [exact IH|].
    destruct Hhd as [|z l Hyz]; simpl; [by constructor|].
    destruct (Qle_bool (compare x z) 0); by constructor.
Qed.

Lemma Sorted_js_sort (l : list A) : Sorted R (js_sort compare l).
Proof.
  induction l as [|x l IH]; [constructor|]. by apply Sorted_insert_by.
Qed.

End Sort.

(** ** The comparator of the outcomes *)

Lemma ranks_before_compare (a b : MarketOutcome) :
  ranks_before a b <-> (Polymarket.compareOutcomes a b <= 0)%Q.
Proof.
  unfold ranks_before, Polymarket.compareOutcomes.
  destruct (Qeq_bool (volume b) (volume a)) eqn:E; simpl.
  - apply Qeq_bool_iff in E. split; [intros [H|[_ H]]|intros H]; lra.
  - apply Qeq_bool_neq in E. split; [intros [H|[H _]]|intros H].
    + lra.
    + done.
    + left. destruct (Qlt_le_dec (volume b) (volume a)) as [|Hle]; [done|].
      exfalso. apply E. lra.
Qed.

Lemma ranks_before_total (a b : MarketOutcome) : ranks_before a b \/ ranks_before b a.
Proof.
  unfold ranks_before.
  destruct (Q_dec (volume a) (volume b)) as [[H|H]|H]; [tauto|tauto|].
  destruct (Qlt_le_dec (probability a) (probability b)).
  - right. right. split; [done|lra].
  - left. right. split; [by symmetry|done].
Qed.

#[local] Instance ranks_before_trans : Transitive ranks_before.
Proof.
  intros a b c. unfold ranks_before.
  intros [H1|[H1 H1']] [H2|[H2 H2']]; [left|left|left|right]; lra.
Qed.

Lemma same_rank_ranks_before (k a b : MarketOutcome) :
  same_rank k a = true -> same_rank k b = true ->
  (Polymarket.compareOutcomes a b <= 0)%Q.
Proof.
  unfold same_rank. rewrite !andb_true_iff, !Qeq_bool_iff.
  intros [Hv1 Hp1] [Hv2 Hp2]. apply ranks_before_compare.
  right. split; lra.
Qed.

(** ** Snapshots built by the market-data module *)

Section Snapshots.

Variable fetch : string -> Promise Polymarket.HttpResponse.
Variable encodeURIComponent : string -> string.

(** What a fulfilled answer of [getMarketData] is made of. *)
Lemma getMarketData_fulfilled (requested : string) (m : MarketData) :
  Polymarket.getMarketData fetch encodeURIComponent requested = Fulfilled m ->
  exists response payload event market names,
    fetch (Polymarket.POLYMARKET_BASE_URL +:+ "?slug=" +:+ encodeURIComponent requested)
      = Fulfilled response /\
    Polymarket.ok response = true /\
    Polymarket.json_body response = Fulfilled payload /\
    Polymarket.events payload ≫= head = Some event /\
    Polymarket.markets event ≫= head = Some market /\
    Polymarket.market_outcomes market = Some names /\
    names <> [] /\
    outcomes m
      = take 2 (js_sort Polymarket.compareOutcomes
                  (Polymarket.normalizeOutcome market <$> seq 0 (length names))) /\
    favoriteOutcomeId m
      = outcome_id <$> foldl Polymarket.pickFavorite None (outcomes m).
Proof.
  unfold Polymarket.getMarketData. intros H.
  destruct (fetch _) as [response|] eqn:Hfetch; [|done].
  destruct (Polymarket.ok response) eqn:Hok; [|done]. simpl in H.
  destruct (Polymarket.json_body response) as [payload|] eqn:Hjson; [|done].
  destruct (Polymarket.events payload ≫= head) as [event|] eqn:Hevent; [|done].
  destruct (Polymarket.markets event ≫= head) as [market|] eqn:Hmarket; [|done].
  destruct (Polymarket.market_outcomes market) as [names|] eqn:Hnames; [|done].
  simpl in H. destruct names as [|name names]; [done|].
  simpl in H. injection H as <-.
  exists response, payload, event, market, (name :: names).
  rewrite Hnames. repeat split; try done.
Qed.

Lemma normalizeOutcome_id_inj (market : Polymarket.GammaMarket) :
  Inj (=) (=) (fun index => outcome_id (Polymarket.normalizeOutcome market index)).
Proof.
  intros i j H. simpl in H.
  apply append_inj in H as [_ H]; [|done].
  apply append_inj in H as [_ H]; [|done].
  by apply (inj pretty) in H.
Qed.

Lemma normalizeOutcome_id_nonempty (market : Polymarket.GammaMarket) (index : nat) :
  outcome_id (Polymarket.normalizeOutcome market index) <> EmptyString.
Proof.
  simpl. destruct (Polymarket.market_id market) as [|c s].
  - rewrite append_nil_l. by rewrite append_cons.
  - by rewrite append_cons.
Qed.

Lemma retained_outcomes_normalized
    (market : Polymarket.GammaMarket) (n : nat) (o : MarketOutcome) :
  o ∈ take 2 (js_sort Polymarket.compareOutcomes
                (Polymarket.normalizeOutcome market <$> seq 0 n)) ->
  exists index, index < n /\ o = Polymarket.normalizeOutcome market index.
Proof.
  intros Ho. apply elem_of_take in Ho as (i & Ho & _).
  apply list_elem_of_lookup_2 in Ho.
  rewrite js_sort_Permutation in Ho.
  apply list_elem_of_fmap in Ho as (index & -> & Hin).
  exists index. split; [|done]. apply elem_of_seq in Hin. lia.
Qed.

Lemma sorted_outcomes (l : list MarketOutcome) :
  StronglySorted ranks_before (js_sort Polymarket.compareOutcomes l).
Proof.
  apply Sorted_StronglySorted; [apply _|].
  apply Sorted_js_sort; [apply ranks_before_compare|apply ranks_before_total].
Qed.

Lemma retained_count (requested : string) (m : MarketData) :
  Polymarket.getMarketData fetch encodeURIComponent requested = Fulfilled m ->
  1 <= length (outcomes m) <= 2.
Proof.
  intros H. apply getMarketData_fulfilled in H
    as (_ & _ & _ & market & names & _ & _ & _ & _ & _ & _ & Hne & Hout & _).
  rewrite Hout, length_take, js_sort_Permutation, length_fmap, length_seq.
  destruct names; [done|]. cbn [length]. lia.
Qed.

Lemma retained_identifiers (requested : string) (m : MarketData) :
  Polymarket.getMarketData fetch encodeURIComponent requested = Fulfilled m ->
  Forall (fun o => outcome_id o <> EmptyString /\ probability o = price o) (outcomes m).
Proof.
  intros H. apply getMarketData_fulfilled in H
    as (_ & _ & _ & market & names & _ & _ & _ & _ & _ & _ & _ & Hout & _).
  rewrite Hout. apply Forall_forall. intros o Ho.
  apply retained_outcomes_normalized in Ho as (index & _ & ->).
  split; [apply normalizeOutcome_id_nonempty|done].
Qed.

(** X1: a snapshot answered by [getMarketData] has one or two outcomes; they
    are the outcomes of the first market of the first event that the
    comparator ranks first: together with the outcomes left out they are a
    permutation of the normalized outcomes, in descending order of volume
    and, at equal volume, of probability. *)
Theorem getMarketData_retains_top_outcomes (requested : string) (m : MarketData) :
  Polymarket.getMarketData fetch encodeURIComponent requested = Fulfilled m ->
  1 <= length (outcomes m) <= 2 /\
  exists response payload event market names dropped,
    fetch (Polymarket.POLYMARKET_BASE_URL +:+ "?slug=" +:+ encodeURIComponent requested)
      = Fulfilled response /\
    Polymarket.json_body response = Fulfilled payload /\
    Polymarket.events payload ≫= head = Some event /\
    Polymarket.markets event ≫= head = Some market /\
    Polymarket.market_outcomes market = Some names /\
    length (outcomes m) = min 2 (length names) /\
    outcomes m ++ dropped
      ≡ₚ Polymarket.normalizeOutcome market <$> seq 0 (length names) /\
    StronglySorted ranks_before (outcomes m ++ dropped).
Proof.
  intros H. apply getMarketData_fulfilled in H
    as (response & payload & event & market & names
        & Hfetch & _ & Hjson & Hevent & Hmarket & Hnames & Hne & Hout & _).
  set (sorted := js_sort Polymarket.compareOutcomes
                   (Polymarket.normalizeOutcome market <$> seq 0 (length names))) in *.
  assert (Hlen : length sorted = length names).
  { unfold sorted. by rewrite js_sort_Permutation, length_fmap, length_seq. }
  assert (Hcount : length (outcomes m) = min 2 (length names)).
  { by rewrite Hout, length_take, Hlen. }
  split; [destruct names; [done|]; cbn [length] in Hcount; lia|].
  exists response, payload, event, market, names, (drop 2 sorted).
  repeat split; try done.
  - rewrite Hout, take_drop. apply js_sort_Permutation.
  - rewrite Hout, take_drop. apply sorted_outcomes.
Qed.

(** X2: in a snapshot answered by [getMarketData] every outcome has an
    identifier that is not empty, the identifiers are pairwise distinct, and
    the probability of an outcome is its price. *)
Theorem getMarketData_outcome_identifiers (requested : string) (m : MarketData) :
  Polymarket.getMarketData fetch encodeURIComponent requested = Fulfilled m ->
  NoDup (outcome_id <$> outcomes m) /\
  Forall (fun o => outcome_id o <> EmptyString /\ probability o = price o) (outcomes m).
Proof.
  intros H. apply getMarketData_fulfilled in H
    as (_ & _ & _ & market & names & _ & _ & _ & _ & _ & _ & _ & Hout & _).
  rewrite Hout. split.
  - rewrite fmap_take. eapply sublist_NoDup; [|apply sublist_take].
    rewrite js_sort_Permutation, <- list_fmap_compose.
    pose proof (normalizeOutcome_id_inj market) as Hinj.
    apply (NoDup_fmap_2 (fun index => outcome_id (Polymarket.normalizeOutcome market index))).
    apply NoDup_seq.
  - apply Forall_forall. intros o Ho.
    apply retained_outcomes_normalized in Ho as (index & _ & ->).
    split; [apply normalizeOutcome_id_nonempty|done].
Qed.

Lemma pickFavorite_two (l : list MarketOutcome) :
  length l <= 2 ->
  foldl Polymarket.pickFavorite None l
  = match l with
    | [] => None
    | [a] => Some a
    | a :: b :: _ => if num_gt (probability b) (probability a) then Some b else Some a
    end.
Proof.
  intros Hlen. destruct l as [|a [|b [|c l]]]; simpl in *; try done; lia.
Qed.

(** X3: a snapshot answered by [getMarketData] always names a favorite: it is
    one of the retained outcomes, no retained outcome has a larger
    probability, and between two outcomes of equal probability it is the
    first (the one ranked first by volume). *)
Theorem getMarketData_favorite (requested : string) (m : MarketData) :
  Polymarket.getMarketData fetch encodeURIComponent requested = Fulfilled m ->
  exists favorite,
    favorite ∈ outcomes m /\
    favoriteOutcomeId m = Some (outcome_id favorite) /\
    outcome_id favorite <> EmptyString /\
    (forall o, o ∈ outcomes m -> (probability o <= probability favorite)%Q) /\
    (forall first second,
       outcomes m = [first; second] ->
       (probability second <= probability first)%Q -> favorite = first).
Proof.
  intros H.
  pose proof (retained_count _ _ H) as Hlen.
  pose proof (retained_identifiers _ _ H) as Hids.
  apply getMarketData_fulfilled in H
    as (_ & _ & _ & _ & _ & _ & _ & _ & _ & _ & _ & _ & _ & Hfav).
  rewrite Hfav, pickFavorite_two by lia.
  destruct (outcomes m) as [|a [|b [|c l]]] eqn:E; simpl in Hlen; try lia.
  - exists a. split; [by left|]. split; [done|].
    split; [by apply Forall_cons_1 in Hids as [[? _] _]|]. split.
    + intros o Ho. apply list_elem_of_singleton in Ho as ->. lra.
    + done.
  - assert (Hboth : forall o, o ∈ [a; b] -> o = a \/ o = b).
    { intros o Ho. apply elem_of_cons in Ho as [->|Ho]; [by left|].
      apply list_elem_of_singleton in Ho as ->. by right. }
    destruct (num_gt (probability b) (probability a)) eqn:Hgt.
    + apply num_gt_lt in Hgt. exists b. split; [by right; left|]. split; [done|].
      split; [by apply Forall_cons_1 in Hids as [_ [[? _] _]%Forall_cons_1]|]. split.
      * intros o Ho. destruct (Hboth o Ho) as [->| ->]; lra.
      * intros first second [= <- <-] Hle. lra.
    + assert (probability b <= probability a)%Q as Hle.
      { destruct (Qlt_le_dec (probability a) (probability b)) as [Hlt|]; [|done].
        apply num_gt_lt in Hlt. congruence. }
      exists a. split; [by left|]. split; [done|].
      split; [by apply Forall_cons_1 in Hids as [[? _] _]|]. split.
      * intros o Ho. destruct (Hboth o Ho) as [->| ->]; lra.
      * by intros first second [= <- <-] _.
Qed.

(** X4: keeping two outcomes loses no large trade: the large-trade test of
    the whale preset holds on the snapshot exactly when some outcome of the
    market, retained or not, has a volume of at least 10000. *)
Theorem getMarketData_large_trade (requested : string) (m : MarketData) :
  Polymarket.getMarketData fetch encodeURIComponent requested = Fulfilled m ->
  exists response payload event market names,
    fetch (Polymarket.POLYMARKET_BASE_URL +:+ "?slug=" +:+ encodeURIComponent requested)
      = Fulfilled response /\
    Polymarket.json_body response = Fulfilled payload /\
    Polymarket.events payload ≫= head = Some event /\
    Polymarket.markets event ≫= head = Some market /\
    Polymarket.market_outcomes market = Some names /\
    (largeTrade m <->
       exists index, index < length names /\
         (10000 <= volume (Polymarket.normalizeOutcome market index))%Q).
Proof.
  intros H. apply getMarketData_fulfilled in H
    as (response & payload & event & market & names
        & Hfetch & _ & Hjson & Hevent & Hmarket & Hnames & Hne & Hout & _).
  exists response, payload, event, market, names. repeat split; try done.
  - intros (o & Ho & Hvol). rewrite Hout in Ho.
    apply retained_outcomes_normalized in Ho as (index & Hlt & ->). eauto.
  - intros (index & Hlt & Hvol). unfold largeTrade. rewrite Hout.
    set (all := Polymarket.normalizeOutcome market <$> seq 0 (length names)).
    assert (Hin : Polymarket.normalizeOutcome market index
                  ∈ js_sort Polymarket.compareOutcomes all).
    { rewrite js_sort_Permutation. apply list_elem_of_fmap.
      exists index. split; [done|]. apply elem_of_seq. lia. }
    pose proof (sorted_outcomes all) as Hsorted.
    destruct (js_sort Polymarket.compareOutcomes all) as [|top rest];
      [by apply elem_of_nil in Hin|].
    exists top. split; [by left|].
    apply elem_of_cons in Hin as [<-|Hin]; [done|].
    apply StronglySorted_inv in Hsorted as [_ Hall].
    rewrite Forall_forall in Hall. apply Hall in Hin.
    destruct Hin as [Hin|[Hin _]]; lra.
Qed.

(** X5: on a snapshot answered by [getMarketData] a condition on the
    probability and the same condition on the price evaluate alike. *)
Theorem getMarketData_probability_is_price
    (requested : string) (m : MarketData) (op : string) (threshold : Q) :
  Polymarket.getMarketData fetch encodeURIComponent requested = Fulfilled m ->
  evaluateCondition {| metric := "probability"; cond_operator := op; value := threshold |} m
  = evaluateCondition {| metric := "price"; cond_operator := op; value := threshold |} m.
Proof.
  intros H. pose proof (retained_identifiers _ _ H) as Hids.
  unfold evaluateCondition. simpl.
  destruct (outcomes m) as [|o rest]; [done|]. simpl.
  apply Forall_cons_1 in Hids as [[_ ->] _]. done.
Qed.

(** X6: [getMarketData] is fulfilled exactly when the request succeeds with
    an [ok] answer whose body parses and whose first event has a first market
    with at least one outcome name; an answer that is not [ok] is rejected
    with its status, whatever its body. *)
Theorem getMarketData_fulfilled_iff
    (requested : string) (response : Polymarket.HttpResponse) :
  fetch (Polymarket.POLYMARKET_BASE_URL +:+ "?slug=" +:+ encodeURIComponent requested)
    = Fulfilled response ->
  ((exists m, Polymarket.getMarketData fetch encodeURIComponent requested = Fulfilled m)
   <-> Polymarket.ok response = true /\
       exists payload event market name names,
         Polymarket.json_body response = Fulfilled payload /\
         Polymarket.events payload ≫= head = Some event /\
         Polymarket.markets event ≫= head = Some market /\
         Polymarket.market_outcomes market = Some (name :: names)) /\
  (Polymarket.ok response = false ->
   Polymarket.getMarketData fetch encodeURIComponent requested
   = Rejected ("Polymarket request failed with status "
               +:+ pretty (Polymarket.http_status response))).
Proof.
  intros Hfetch. split; [split|].
  - intros [m H]. apply getMarketData_fulfilled in H
      as (response' & payload & event & market & names
          & Hfetch' & Hok & Hjson & Hevent & Hmarket & Hnames & Hne & _).
    rewrite Hfetch in Hfetch'. injection Hfetch' as <-.
    split; [done|]. destruct names as [|name names]; [done|].
    by exists payload, event, market, name, names.
  - intros (Hok & payload & event & market & name & names
            & Hjson & Hevent & Hmarket & Hnames).
    unfold Polymarket.getMarketData.
    rewrite Hfetch, Hok. simpl. rewrite Hjson, Hevent, Hmarket, Hnames. simpl.
    by eexists.
  - intros Hok. unfold Polymarket.getMarketData. by rewrite Hfetch, Hok.
Qed.

End Snapshots.

(** X7: the sort of the outcomes is stable: outcomes of equal volume and
    probability stay in the order of the answer of the market service. *)
Theorem sort_keeps_order_of_ties (k : MarketOutcome) (l : list MarketOutcome) :
  List.filter (same_rank k) (js_sort Polymarket.compareOutcomes l)
  = List.filter (same_rank k) l.
Proof. apply js_sort_filter. intros a b. apply same_rank_ranks_before. Qed.

(** ** Sample snapshot *)

(** Of three outcomes the two with volume 12000 are kept, Bob first for his
    larger probability; the fallback total counts the kept outcomes only. *)
Example sample_snapshot_answer :
  Polymarket.getMarketData sample_fetch sample_encode "who-wins" = Fulfilled sample_snapshot.
Proof. vm_compute. reflexivity. Qed.

Lemma getMarketData_retains_top_outcomes_witness :
  1 <= length (outcomes sample_snapshot) <= 2 /\
  exists response payload event market names dropped,
    sample_fetch (Polymarket.POLYMARKET_BASE_URL +:+ "?slug=" +:+ sample_encode "who-wins")
      = Fulfilled response /\
    Polymarket.json_body response = Fulfilled payload /\
    Polymarket.events payload ≫= head = Some event /\
    Polymarket.markets event ≫= head = Some market /\
    Polymarket.market_outcomes market = Some names /\
    length (outcomes sample_snapshot) = min 2 (length names) /\
    outcomes sample_snapshot ++ dropped
      ≡ₚ Polymarket.normalizeOutcome market <$> seq 0 (length names) /\
    StronglySorted ranks_before (outcomes sample_snapshot ++ dropped).
Proof.
  apply (getMarketData_retains_top_outcomes sample_fetch sample_encode "who-wins").
  vm_compute. reflexivity.
Defined.

Lemma getMarketData_outcome_identifiers_witness :
  NoDup (outcome_id <$> outcomes sample_snapshot) /\
  Forall (fun o => outcome_id o <> EmptyString /\ probability o = price o)
         (outcomes sample_snapshot).
Proof.
  apply (getMarketData_outcome_identifiers sample_fetch sample_encode "who-wins").
  vm_compute. reflexivity.
Defined.

Lemma getMarketData_favorite_witness :
  exists favorite,
    favorite ∈ outcomes sample_snapshot /\
    favoriteOutcomeId sample_snapshot = Some (outcome_id favorite) /\
    outcome_id favorite <> EmptyString /\
    (forall o, o ∈ outcomes sample_snapshot -> (probability o <= probability favorite)%Q) /\
    (forall first second,
       outcomes sample_snapshot = [first; second] ->
       (probability second <= probability first)%Q -> favorite = first).
Proof.
  apply (getMarketData_favorite sample_fetch sample_encode "who-wins").
  vm_compute. reflexivity.
Defined.

Lemma getMarketData_large_trade_witness :
  exists response payload event market names,
    sample_fetch (Polymarket.POLYMARKET_BASE_URL +:+ "?slug=" +:+ sample_encode "who-wins")
      = Fulfilled response /\
    Polymarket.json_body response = Fulfilled payload /\
    Polymarket.events payload ≫= head = Some event /\
    Polymarket.markets event ≫= head = Some market /\
    Polymarket.market_outcomes market = Some names /\
    (largeTrade sample_snapshot <->
       exists index, index < length names /\
         (10000 <= volume (Polymarket.normalizeOutcome market index))%Q).
Proof.
  apply (getMarketData_large_trade sample_fetch sample_encode "who-wins").
  vm_compute. reflexivity.
Defined.

Lemma getMarketData_probability_is_price_witness :
  evaluateCondition {| metric := "probability"; cond_operator := "gt"; value := 4 # 10 |}
    sample_snapshot
  = evaluateCondition {| metric := "price"; cond_operator := "gt"; value := 4 # 10 |}
    sample_snapshot.
Proof.
  apply (getMarketData_probability_is_price sample_fetch sample_encode "who-wins").
  vm_compute. reflexivity.
Defined.

Lemma getMarketData_fulfilled_iff_witness :
  ((exists m, Polymarket.getMarketData sample_fetch sample_encode "who-wins" = Fulfilled m)
   <-> Polymarket.ok sample_http_response = true /\
       exists payload event market name names,
         Polymarket.json_body sample_http_response = Fulfilled payload /\
         Polymarket.events payload ≫= head = Some event /\
         Polymarket.markets event ≫= head = Some market /\
         Polymarket.market_outcomes market = Some (name :: names)) /\
  (Polymarket.ok sample_http_response = false ->
   Polymarket.getMarketData sample_fetch sample_encode "who-wins"
   = Rejected ("Polymarket request failed with status "
               +:+ pretty (Polymarket.http_status sample_http_response))).
Proof.
  apply (getMarketData_fulfilled_iff sample_fetch sample_encode "who-wins").
  reflexivity.
Defined.

(** * Properties of the batch loop *)

Section Loop.

Variable env : Collaborators.
Variable buildEmailHtml : AlertRow -> MarketData -> string.

(** The loop runs its body on the first alert and goes on with the rest. *)
Lemma processAlerts_cons (alert : AlertRow) (rest : list AlertRow) (processed : nat) (st : State) :
  processAlerts env buildEmailHtml (alert :: rest) processed st
  = (processAlert env buildEmailHtml alert processed
       ≫= processAlerts env buildEmailHtml rest) st.
Proof.
  cbn [processAlerts]. unfold processAlert, mbind, M_bind.
  destruct (let '(a, st') := fetchMarket env (market_slug alert) st in _)
    as [[market|e] st1]; [|done].
  destruct (evaluateAlert alert market st1) as [[[|]|e] st2]; try done.
  cbn [negb].
  destruct (let '(a, st') := resolveUserEmail env (user_id alert) st2 in _)
    as [[[address|]|e] st3]; try done.
  destruct (is_empty address); [done|].
  destruct (let '(a, st') := call _ _ st3 in _) as [[[]|e] st4]; [|done].
  by destruct (markAlertTriggered env (alert_id alert) st4) as [[[]|e] st5].
Qed.

(** What the memoized fetch of a market does to the state. *)
Lemma fetchMarket_await_effect (slug : string) (st st1 : State) (r : Completion MarketData) :
  (fetchMarket env slug ≫= await) st = (r, st1) ->
  favoriteOutcomeCache st1 = favoriteOutcomeCache st /\
  volumeCache st1 = volumeCache st /\
  userEmailCache st1 = userEmailCache st /\
  (forall k p, marketCache st !! k = Some p -> marketCache st1 !! k = Some p) /\
  (forall k, k <> slug -> marketCache st1 !! k = marketCache st !! k) /\
  marketCache st1 !! slug
    = Some (match r with Normal m => Fulfilled m | Throw e => Rejected e end) /\
  (is_Some (marketCache st !! slug) -> st1 = st) /\
  exists evs, trace st1 = trace st ++ evs /\ Forall (fun ev => ev = GetMarketData slug) evs.
Proof.
  intros H. destruct (marketCache st !! slug) as [p|] eqn:E.
  - erewrite bind_normal in H by (by apply fetchMarket_hit).
    assert (st1 = st /\ p = match r with Normal m => Fulfilled m | Throw e => Rejected e end)
      as [-> ->].
    { destruct p; unfold await, throw, mret, M_ret in H; by simplify_eq. }
    split_and!; try done. exists []. by rewrite app_nil_r.
  - destruct (fetchMarket_miss env slug st E) as (s & Hrun & Hm & Hu & Hv & Hf & Ht).
    erewrite bind_normal in H by exact Hrun.
    assert (s = st1 /\ getMarketData env (trace st) slug
              = match r with Normal m => Fulfilled m | Throw e => Rejected e end)
      as [-> Hr].
    { destruct (getMarketData env (trace st) slug);
        unfold await, throw, mret, M_ret in H; by simplify_eq. }
    split_and!; [done|done|done| | | | |].
    + intros k p Hk. rewrite Hm, lookup_insert_ne; [done|congruence].
    + intros k Hk. by rewrite Hm, lookup_insert_ne.
    + by rewrite Hm, lookup_insert_eq, Hr.
    + by intros [? [=]].
    + exists [GetMarketData slug]. split; [done|]. by repeat constructor.
Qed.

(** What the memoized resolution of a recipient does to the state. *)
Lemma resolveUserEmail_await_effect
    (userId : string) (st st1 : State) (r : Completion (option string)) :
  (resolveUserEmail env userId ≫= await) st = (r, st1) ->
  marketCache st1 = marketCache st /\
  favoriteOutcomeCache st1 = favoriteOutcomeCache st /\
  volumeCache st1 = volumeCache st /\
  (forall k p, userEmailCache st !! k = Some p -> userEmailCache st1 !! k = Some p) /\
  exists evs, trace st1 = trace st ++ evs /\
    Forall (fun ev => is_dispatch_or_persist ev = false) evs.
Proof.
  intros H. destruct (userEmailCache st !! userId) as [p|] eqn:E.
  - erewrite bind_normal in H by (by apply resolveUserEmail_hit).
    assert (st1 = st) as ->.
    { destruct p; unfold await, throw, mret, M_ret in H; by simplify_eq. }
    split_and!; try done. exists []. by rewrite app_nil_r.
  - destruct (resolveUserEmail_miss env userId st E)
      as (p & s & logs & Hrun & Hu & Hm & Hv & Hf & Ht & Hlogs).
    erewrite bind_normal in H by exact Hrun.
    assert (s = st1) as ->.
    { destruct p; unfold await, throw, mret, M_ret in H; by simplify_eq. }
    split_and!; [done|done|done| |].
    + intros k q Hk. rewrite Hu, lookup_insert_ne; [done|congruence].
    + exists (GetUserById userId :: logs). split; [done|].
      constructor; [done|]. eapply Forall_impl; [exact Hlogs|]. by intros ev [args ->].
Qed.

(** What the evaluation of an alert does to the state. *)
Lemma evaluateAlert_effect (alert : AlertRow) (market : MarketData) (st : State) :
  exists b st',
    evaluateAlert alert market st = (Normal b, st') /\
    trace st' = trace st /\
    marketCache st' = marketCache st /\
    userEmailCache st' = userEmailCache st /\
    (forall other, other <> alert_id alert ->
       volumeCache st' !! other = volumeCache st !! other /\
       favoriteOutcomeCache st' !! other = favoriteOutcomeCache st !! other).
Proof.
  unfold evaluateAlert.
  destruct (alert_type alert), (preset_type alert) as [[]|], (custom_settings alert); run;
    try (eexists _, _; split; [reflexivity|]; simpl; repeat split; try done;
         by apply lookup_insert_ne).
  all: destruct (negb (truthy (favoriteOutcomeId market))
                 || negb (truthy (mjoin (favoriteOutcomeCache st !! alert_id alert))));
    eexists _, _; (split; [reflexivity|]); simpl; repeat split; try done;
    by apply lookup_insert_ne.
Qed.

(** X8: whatever its result, the evaluation of an alert calls nothing
    outside; it leaves the two lookup caches alone and, in the state store,
    changes at most the entries of the alert itself; the evaluation of a
    custom alert changes nothing at all. *)
Theorem evaluateAlert_frame
    (alert : AlertRow) (market : MarketData) (st st' : State) (r : Completion bool) :
  evaluateAlert alert market st = (r, st') ->
  trace st' = trace st /\
  marketCache st' = marketCache st /\
  userEmailCache st' = userEmailCache st /\
  (forall other, other <> alert_id alert ->
     volumeCache st' !! other = volumeCache st !! other /\
     favoriteOutcomeCache st' !! other = favoriteOutcomeCache st !! other) /\
  (alert_type alert = CUSTOM -> st' = st).
Proof.
  intros Hrun.
  destruct (evaluateAlert_effect alert market st) as (b & s & Hs & Htrace & Hm & Hu & Hother).
  rewrite Hs in Hrun. injection Hrun as <- <-.
  split_and!; try done.
  intros Hcustom. unfold evaluateAlert in Hs. rewrite Hcustom in Hs.
  destruct (custom_settings alert); unfold mret, M_ret in Hs; by injection Hs as <- <-.
Qed.

(** What dispatching a notification and recording the trigger does. *)
Lemma dispatch_effect
    (alert : AlertRow) (email : Email) (processed : nat)
    (st st' : State) (r : Completion nat) :
  ((call (EmailsSend email) (fun tr => emailsSend env tr email) ≫= await);;
   markAlertTriggered env (alert_id alert);;
   mret (processed + 1)) st = (r, st') ->
  same_caches st st' /\
  ((exists e, r = Throw e /\ trace st' = trace st ++ [EmailsSend email]) \/
   (exists e, r = Throw e /\
      trace st' = trace st ++ [EmailsSend email; UpdateLastTriggered (alert_id alert)]) \/
   (r = Normal (processed + 1) /\
    exists logs,
      trace st' = trace st ++ EmailsSend email :: UpdateLastTriggered (alert_id alert) :: logs /\
      Forall (fun ev => exists args, ev = ConsoleError args) logs)).
Proof.
  unfold markAlertTriggered. run.
  destruct (emailsSend env (trace st) email) as [[]|e]; simpl.
  - destruct (updateLastTriggered env _ (alert_id alert)) as [[[] [e|]]|e]; simpl;
      intros [= <- <-]; (split; [done|]); simpl; rewrite <- ?app_assoc; simpl.
    + right. right. split; [done|]. eexists [_]. split; [done|]. repeat constructor. eauto.
    + right. right. split; [done|]. by exists [].
    + right. left. eauto.
  - intros [= <- <-]. split; [done|]. left. eauto.
Qed.

(** The body of the loop, step by step. *)
Lemma processAlert_effect (alert : AlertRow) (processed : nat) (st st' : State) (r : Completion nat) :
  processAlert env buildEmailHtml alert processed st = (r, st') ->
  exists rm st1,
    (fetchMarket env (market_slug alert) ≫= await) st = (rm, st1) /\
    match rm with
    | Throw e => r = Throw e /\ st' = st1
    | Normal market =>
        exists b st2,
          evaluateAlert alert market st1 = (Normal b, st2) /\
          marketCache st' = marketCache st2 /\
          favoriteOutcomeCache st' = favoriteOutcomeCache st2 /\
          volumeCache st' = volumeCache st2 /\
          (forall k p, userEmailCache st2 !! k = Some p -> userEmailCache st' !! k = Some p) /\
          exists quiets tail,
            trace st' = trace st2 ++ quiets ++ tail /\
            Forall (fun ev => is_dispatch_or_persist ev = false) quiets /\
            ((tail = [] /\ (r = Normal processed \/ exists e, r = Throw e)) \/
             (b = true /\
              exists address,
                address <> EmptyString /\
                let email :=
                  {| from := "PolyTrack Alerts <alerts@polytrack.app>";
                     to := address;
                     subject := buildEmailSubject alert market;
                     html := buildEmailHtml alert market |} in
                ((exists e, r = Throw e /\ tail = [EmailsSend email]) \/
                 (exists e, r = Throw e /\
                    tail = [EmailsSend email; UpdateLastTriggered (alert_id alert)]) \/
                 (r = Normal (processed + 1) /\
                  exists logs,
                    tail = EmailsSend email :: UpdateLastTriggered (alert_id alert) :: logs /\
                    Forall (fun ev => exists args, ev = ConsoleError args) logs))))
    end.
Proof.
  unfold processAlert. intros H.
  destruct ((fetchMarket env (market_slug alert) ≫= await) st) as [rm st1] eqn:Hfetch.
  exists rm, st1. split; [done|].
  destruct rm as [market|e]; [|by erewrite bind_throw in H by exact Hfetch; simplify_eq].
  erewrite bind_normal in H by exact Hfetch.
  destruct (evaluateAlert_effect alert market st1) as (b & st2 & Heval & _).
  erewrite bind_normal in H by exact Heval.
  exists b, st2. split; [done|].
  assert (Hquiet : forall s, trace s = trace s ++ [] ++ []) by (intros; by rewrite app_nil_r).
  destruct b; cbn [negb] in H.
  2: { unfold mret, M_ret in H. simplify_eq. split_and!; try done.
       exists [], []. split_and!; [apply Hquiet|constructor|]. left. eauto. }
  destruct ((resolveUserEmail env (user_id alert) ≫= await) st2) as [rr st3] eqn:Hresolve.
  destruct (resolveUserEmail_await_effect _ _ _ _ Hresolve)
    as (Hm & Hf & Hv & Hu & quiets & Ht & Hq).
  destruct rr as [recipient|e].
  2: { erewrite bind_throw in H by exact Hresolve. simplify_eq. split_and!; try done.
       exists quiets, []. rewrite app_nil_r. split_and!; try done. left. eauto. }
  erewrite bind_normal in H by exact Hresolve.
  destruct recipient as [[|c address]|]; cbn [is_empty] in H.
  1, 3: unfold mret, M_ret in H; simplify_eq; split_and!; try done;
        exists quiets, []; rewrite app_nil_r; split_and!; try done; left; eauto.
  apply dispatch_effect in H as [(Hm' & Hf' & Hv' & Hu') Hshape].
  split_and!; [congruence|congruence|congruence|intros k p Hk; rewrite Hu'; eauto|].
  destruct Hshape as [(e & -> & Htail)|[(e & -> & Htail)|(-> & logs & Htail & Hlogs)]].
  - eexists quiets, _. split_and!; [by rewrite Htail, Ht, <- app_assoc|done|].
    right. split; [done|]. eexists. split; [|left; eauto]. done.
  - eexists quiets, _. split_and!; [by rewrite Htail, Ht, <- app_assoc|done|].
    right. split; [done|]. eexists. split; [|right; left; eauto]. done.
  - eexists quiets, _. split_and!; [by rewrite Htail, Ht, <- app_assoc|done|].
    right. split; [done|]. eexists. split; [|right; right; eauto]. done.
Qed.

Lemma count_events_app (p : Event -> bool) (evs1 evs2 : list Event) :
  count_events p (evs1 ++ evs2) = count_events p evs1 + count_events p evs2.
Proof. unfold count_events. by rewrite List.filter_app, length_app. Qed.

Lemma count_events_none (p : Event -> bool) (evs : list Event) :
  Forall (fun ev => p ev = false) evs -> count_events p evs = 0.
Proof.
  unfold count_events. induction 1 as [|ev evs Hev _ IH]; [done|].
  simpl. by rewrite Hev.
Qed.

Lemma quiet_not_dispatch (evs : list Event) :
  Forall (fun ev => is_dispatch_or_persist ev = false) evs ->
  count_events is_dispatch evs = 0 /\ count_events is_persist evs = 0.
Proof.
  intros H. split; apply count_events_none; (eapply Forall_impl; [exact H|]);
    by intros [].
Qed.

Lemma fetched_not_dispatch (slug : string) (evs : list Event) :
  Forall (fun ev => ev = GetMarketData slug) evs ->
  Forall (fun ev => is_dispatch_or_persist ev = false) evs.
Proof. intros H. eapply Forall_impl; [exact H|]. by intros ev ->. Qed.

Lemma logs_not_dispatch (logs : list Event) :
  Forall (fun ev => exists args, ev = ConsoleError args) logs ->
  Forall (fun ev => is_dispatch_or_persist ev = false) logs.
Proof. intros H. eapply Forall_impl; [exact H|]. by intros ev [args ->]. Qed.

(** The events of one pass through the body of the loop. *)
Lemma processAlert_trace (alert : AlertRow) (processed : nat) (st st' : State) (r : Completion nat) :
  processAlert env buildEmailHtml alert processed st = (r, st') ->
  exists evs,
    trace st' = trace st ++ evs /\
    count_events is_dispatch evs <= 1 /\
    match r with
    | Normal n =>
        n = processed + count_events is_dispatch evs /\
        count_events is_persist evs = count_events is_dispatch evs
    | Throw _ =>
        count_events is_persist evs <= count_events is_dispatch evs
    end.
Proof.
  intros H. apply processAlert_effect in H as (rm & st1 & Hfetch & H).
  destruct (fetchMarket_await_effect _ _ _ _ Hfetch)
    as (_ & _ & _ & _ & _ & _ & _ & evs1 & Ht1 & Hq1%fetched_not_dispatch).
  destruct (quiet_not_dispatch _ Hq1) as [Hd1 Hp1].
  destruct rm as [market|e].
  2: { destruct H as [-> ->]. exists evs1. rewrite Hd1, Hp1. split_and!; [done|lia|lia]. }
  destruct H as (b & st2 & Heval & _ & _ & _ & _ & quiets & tail & Ht & Hq & Hshape).
  destruct (evaluateAlert_effect alert market st1) as (b' & st2' & Heval' & Ht2 & _).
  rewrite Heval in Heval'. injection Heval' as <- <-.
  destruct (quiet_not_dispatch _ Hq) as [Hd Hp].
  exists (evs1 ++ quiets ++ tail).
  split; [by rewrite Ht, Ht2, Ht1, <- app_assoc|].
  rewrite !count_events_app, Hd1, Hp1, Hd, Hp.
  destruct Hshape as [[-> Hr]|(_ & address & _ & Hshape)].
  - unfold count_events. simpl. destruct Hr as [->|[e ->]]; split_and!; lia.
  - destruct Hshape as [(e & -> & ->)|[(e & -> & ->)|(-> & logs & -> & Hlogs)]].
    + unfold count_events. simpl. lia.
    + unfold count_events. simpl. lia.
    + destruct (quiet_not_dispatch _ (logs_not_dispatch _ Hlogs)) as [Hdl Hpl].
      change (?a :: ?b :: logs) with ([a; b] ++ logs).
      rewrite !count_events_app, Hdl, Hpl. unfold count_events. simpl. lia.
Qed.

Lemma processAlerts_trace (alerts : list AlertRow) (processed : nat) (st st' : State)
    (r : Completion nat) :
  processAlerts env buildEmailHtml alerts processed st = (r, st') ->
  exists evs,
    trace st' = trace st ++ evs /\
    count_events is_dispatch evs <= length alerts /\
    match r with
    | Normal n =>
        n = processed + count_events is_dispatch evs /\
        count_events is_persist evs = count_events is_dispatch evs
    | Throw _ =>
        count_events is_persist evs <= count_events is_dispatch evs
    end.
Proof.
  revert processed st. induction alerts as [|alert rest IH]; intros processed st H.
  { simpl in H. unfold mret, M_ret in H. simplify_eq. exists [].
    rewrite app_nil_r. unfold count_events. simpl. split_and!; [done|lia|lia|done]. }
  rewrite processAlerts_cons in H.
  destruct (processAlert env buildEmailHtml alert processed st) as [rb sb] eqn:Hbody.
  destruct (processAlert_trace _ _ _ _ _ Hbody) as (evs1 & Ht1 & Hone & Hb).
  destruct rb as [n1|e].
  - erewrite bind_normal in H by exact Hbody.
    apply IH in H as (evs2 & Ht2 & Hlen & Hr). destruct Hb as [-> Hb].
    exists (evs1 ++ evs2). split; [by rewrite Ht2, Ht1, app_assoc|].
    rewrite !count_events_app. cbn [length]. split; [lia|].
    destruct r; [|lia]. destruct Hr as [-> Hr]. split; lia.
  - erewrite bind_throw in H by exact Hbody. simplify_eq.
    exists evs1. split; [done|]. cbn [length]. split; [lia|done].
Qed.

(** ** The handler as a whole *)

Lemma fetchActiveAlerts_effect (st : State) :
  fetchActiveAlerts env st
  = (match selectAlerts env (trace st) with
     | Rejected e => Throw e
     | Fulfilled result =>
         match error result with
         | Some e => Throw e
         | None => Normal (default [] (data result))
         end
     end, emit SelectAlerts st).
Proof.
  unfold fetchActiveAlerts. run.
  by destruct (selectAlerts env (trace st)) as [[d [e|]]|e].
Qed.

(** With a configured secret: the answer of the handler in terms of the load
    and of the loop. *)
Lemma POST_effect (request : Request) (st : State) :
  truthy (CRON_SECRET env) = true ->
  POST env buildEmailHtml request st
  = if bool_decide (bearerCredential request = CRON_SECRET env)
    then
      match fetchActiveAlerts env st with
      | (Throw e, sl) =>
          (Normal {| body := ErrorBody "CRON_FAILED"; status := 500 |},
           emit (ConsoleError [e]) sl)
      | (Normal alerts, sl) =>
          match processAlerts env buildEmailHtml alerts 0 sl with
          | (Normal k, sp) => (Normal {| body := SuccessBody k; status := 200 |}, sp)
          | (Throw e, sp) =>
              (Normal {| body := ErrorBody "CRON_FAILED"; status := 500 |},
               emit (ConsoleError [e]) sp)
          end
      end
    else (Normal {| body := ErrorBody "UNAUTHORIZED"; status := 401 |}, st).
Proof.
  intros Hsecret. unfold POST, isCronAuthorized, bearerCredential.
  rewrite Hsecret. cbn [negb]. unfold mbind at 1, M_bind at 1, mret at 1, M_ret at 1.
  destruct (bool_decide _); cbn [negb]; [|done].
  unfold try_catch, mbind, M_bind.
  destruct (fetchActiveAlerts env st) as [[[|a l]|e] sl]; try done.
  by destruct (processAlerts env buildEmailHtml (a :: l) 0 sl) as [[k|e] sp].
Qed.

(** X9: a run answered with success reports exactly the number of
    notifications it dispatched, and it recorded as many trigger timestamps;
    the count never exceeds the number of trigger-timestamp updates or
    dispatches made. *)
Theorem POST_reports_dispatches
    (request : Request) (st st' : State) (k code : nat) :
  POST env buildEmailHtml request st
    = (Normal {| body := SuccessBody k; status := code |}, st') ->
  code = 200 /\
  exists evs,
    trace st' = trace st ++ evs /\
    k = count_events is_dispatch evs /\
    k = count_events is_persist evs.
Proof.
  intros H. destruct (truthy (CRON_SECRET env)) eqn:Hsecret.
  2: { unfold POST, isCronAuthorized in H. rewrite Hsecret in H. done. }
  rewrite POST_effect in H by done.
  destruct (bool_decide _); [|done].
  destruct (fetchActiveAlerts env st) as [rl sl] eqn:Hload.
  rewrite fetchActiveAlerts_effect in Hload. injection Hload as _ <-.
  destruct rl as [alerts|e]; [|done].
  destruct (processAlerts env buildEmailHtml alerts 0 (emit SelectAlerts st))
    as [[n|e] sp] eqn:Hloop; [|done].
  injection H as <- <- <-. split; [done|].
  apply processAlerts_trace in Hloop as (evs & Ht & _ & Hk & Hp).
  exists (SelectAlerts :: evs). split; [by rewrite Ht; simpl; rewrite <- app_assoc|].
  change (SelectAlerts :: evs) with ([SelectAlerts] ++ evs).
  rewrite !count_events_app. unfold count_events at 1 3. simpl. lia.
Qed.

(** X10: with a configured secret the handler never throws: it answers 401
    and leaves the state alone, or 200 with a count, or 500 CRON_FAILED;
    without a configured secret it throws before doing anything. *)
Theorem POST_always_answers (request : Request) (st : State) :
  (truthy (CRON_SECRET env) = true ->
   exists response st',
     POST env buildEmailHtml request st = (Normal response, st') /\
     ((response = {| body := ErrorBody "UNAUTHORIZED"; status := 401 |} /\ st' = st) \/
      (exists k, response = {| body := SuccessBody k; status := 200 |}) \/
      response = {| body := ErrorBody "CRON_FAILED"; status := 500 |})) /\
  (truthy (CRON_SECRET env) = false ->
   POST env buildEmailHtml request st = (Throw "CRON_SECRET env variable missing", st)).
Proof.
  split; intros Hsecret.
  - rewrite POST_effect by done.
    destruct (bool_decide _); [|eauto 10].
    destruct (fetchActiveAlerts env st) as [[alerts|e] sl]; [|eauto 10].
    destruct (processAlerts env buildEmailHtml alerts 0 sl) as [[k|e] sp]; eauto 10.
  - unfold POST, isCronAuthorized. by rewrite Hsecret.
Qed.

(** ** Invariants of the loop and of the handler *)

Section Invariant.

Variable I : State -> Prop.
Variable Q : Event -> Prop.
Variable Good : AlertRow -> Prop.

Hypothesis body_keeps : forall alert n st r st',
  Good alert -> I st ->
  processAlert env buildEmailHtml alert n st = (r, st') ->
  I st' /\ exists evs, trace st' = trace st ++ evs /\ Forall Q evs.

Lemma processAlerts_invariant (alerts : list AlertRow) (n : nat) (st st' : State)
    (r : Completion nat) :
  Forall Good alerts -> I st ->
  processAlerts env buildEmailHtml alerts n st = (r, st') ->
  I st' /\ exists evs, trace st' = trace st ++ evs /\ Forall Q evs.
Proof.
  intros Hgood. revert n st. induction Hgood as [|alert rest Halert _ IH]; intros n st HI H.
  { simpl in H. unfold mret, M_ret in H. simplify_eq. split; [done|].
    exists []. by rewrite app_nil_r. }
  rewrite processAlerts_cons in H.
  destruct (processAlert env buildEmailHtml alert n st) as [rb sb] eqn:Hbody.
  destruct (body_keeps _ _ _ _ _ Halert HI Hbody) as (HI1 & evs1 & Ht1 & HQ1).
  destruct rb as [n1|e].
  - erewrite bind_normal in H by exact Hbody.
    destruct (IH _ _ HI1 H) as (HI2 & evs2 & Ht2 & HQ2). split; [done|].
    exists (evs1 ++ evs2). split; [by rewrite Ht2, Ht1, app_assoc|by apply Forall_app].
  - erewrite bind_throw in H by exact Hbody. simplify_eq. eauto.
Qed.

Hypothesis I_emit : forall ev st, I st -> I (emit ev st).
Hypothesis Q_select : Q SelectAlerts.
Hypothesis Q_log : forall args, Q (ConsoleError args).
Hypothesis loaded_good : forall tr result alerts,
  selectAlerts env tr = Fulfilled result -> data result = Some alerts ->
  Forall Good alerts.

Lemma POST_invariant (request : Request) (st st' : State) (r : Completion Response) :
  I st ->
  POST env buildEmailHtml request st = (r, st') ->
  I st' /\ exists evs, trace st' = trace st ++ evs /\ Forall Q evs.
Proof.
  intros HI H.
  assert (Hnil : I st /\ exists evs, trace st = trace st ++ evs /\ Forall Q evs).
  { split; [done|]. exists []. by rewrite app_nil_r. }
  destruct (truthy (CRON_SECRET env)) eqn:Hsecret.
  2: { unfold POST, isCronAuthorized in H. rewrite Hsecret in H.
       unfold mbind, M_bind, throw in H. simpl in H. by simplify_eq. }
  rewrite POST_effect in H by done.
  destruct (bool_decide _); [|by simplify_eq].
  destruct (fetchActiveAlerts env st) as [rl sl] eqn:Hload.
  rewrite fetchActiveAlerts_effect in Hload. injection Hload as Hrl <-.
  destruct rl as [alerts|e].
  2: { simplify_eq. split; [by repeat apply I_emit|].
       exists [SelectAlerts; ConsoleError [e]]. split.
       - simpl. by rewrite <- app_assoc.
       - repeat constructor; auto. }
  assert (Forall Good alerts) as Hgood.
  { destruct (selectAlerts env (trace st)) as [result|] eqn:Hsel; [|done].
    destruct (error result); [done|]. injection Hrl as <-.
    destruct (data result) as [l|] eqn:Hdata; [by eapply loaded_good|constructor]. }
  destruct (processAlerts env buildEmailHtml alerts 0 (emit SelectAlerts st))
    as [rp sp] eqn:Hloop.
  apply processAlerts_invariant in Hloop as (HI' & evs & Ht & HQ); [|done|by apply I_emit].
  destruct rp as [k|e]; simplify_eq.
  - split; [done|]. exists (SelectAlerts :: evs).
    split; [by rewrite Ht; simpl; rewrite <- app_assoc|by constructor].
  - split; [by apply I_emit|]. exists (SelectAlerts :: evs ++ [ConsoleError [e]]).
    split; [simpl; rewrite Ht; simpl; by rewrite <- !app_assoc|].
    constructor; [done|]. apply Forall_app. split; [done|]. repeat constructor. auto.
Qed.

End Invariant.

(** ** The lookup caches are never refreshed *)

Lemma processAlert_keeps_caches (st0 : State) (alert : AlertRow) (n : nat) (st : State)
    (r : Completion nat) (st' : State) :
  True -> caches_kept st0 st ->
  processAlert env buildEmailHtml alert n st = (r, st') ->
  caches_kept st0 st' /\ exists evs, trace st' = trace st ++ evs /\ Forall (fun _ => True) evs.
Proof.
  intros _ [Hm0 Hu0] H.
  destruct (processAlert_trace _ _ _ _ _ H) as (evs & Ht & _).
  split; [|exists evs; split; [done|by apply Forall_true]].
  apply processAlert_effect in H as (rm & st1 & Hfetch & H).
  destruct (fetchMarket_await_effect _ _ _ _ Hfetch) as (_ & _ & Hu1 & Hm1 & _).
  destruct rm as [market|e]; [|destruct H as [_ ->]; split; [eauto|by rewrite Hu1]].
  destruct H as (b & st2 & Heval & Hm & _ & _ & Hu & _).
  destruct (evaluateAlert_effect alert market st1) as (b' & st2' & Heval' & _ & Hm2 & Hu2 & _).
  rewrite Heval in Heval'. injection Heval' as <- <-.
  split.
  - intros k p Hk. rewrite Hm, Hm2. eauto.
  - intros k p Hk. apply Hu. rewrite Hu2, Hu1. eauto.
Qed.

Lemma caches_kept_emit (st0 : State) (ev : Event) (st : State) :
  caches_kept st0 st -> caches_kept st0 (emit ev st).
Proof. done. Qed.

Lemma POST_caches_kept
    (request : Request) (st st' : State) (r : Completion Response) :
  POST env buildEmailHtml request st = (r, st') ->
  caches_kept st st'.
Proof.
  intros H.
  assert (caches_kept st st) as Hrefl by done.
  refine (proj1 (POST_invariant (caches_kept st) (fun _ => True) (fun _ => True)
                   (processAlert_keeps_caches st) (caches_kept_emit st)
                   Logic.I (fun _ => Logic.I) _ request st st' r Hrefl H)).
  intros. by apply Forall_true.
Qed.

(** X11: no run of the handler replaces or removes an entry of the market
    cache or of the recipient cache: what was memoized before a run is what
    the run and every later run of the process will use. *)
Theorem POST_keeps_lookup_caches
    (request : Request) (st st' : State) (r : Completion Response) :
  POST env buildEmailHtml request st = (r, st') ->
  caches_kept st st'.
Proof. apply POST_caches_kept. Qed.

(** X12: a rejected market fetch is memoized like any other: the loop stops
    at an alert on that market with the memoized error, asks nothing
    upstream and changes nothing, and no run of the handler clears the
    entry. *)
Theorem rejected_market_is_not_retried
    (alert : AlertRow) (rest : list AlertRow) (processed : nat) (st : State) (e : Error) :
  marketCache st !! market_slug alert = Some (Rejected e) ->
  processAlerts env buildEmailHtml (alert :: rest) processed st = (Throw e, st) /\
  (forall request r st',
     POST env buildEmailHtml request st = (r, st') ->
     marketCache st' !! market_slug alert = Some (Rejected e)).
Proof.
  intros Hcached. split.
  - cbn [processAlerts].
    erewrite bind_throw; [done|].
    by erewrite bind_normal by (by apply fetchMarket_hit).
  - intros request r st' H. apply POST_caches_kept in H as [Hm _]. eauto.
Qed.

(** ** Notifications *)

Lemma processAlert_addresses (alert : AlertRow) (n : nat) (st : State) (r : Completion nat)
    (st' : State) :
  True -> True ->
  processAlert env buildEmailHtml alert n st = (r, st') ->
  True /\ exists evs, trace st' = trace st ++ evs /\ Forall well_addressed evs.
Proof.
  intros _ _ H. split; [done|].
  apply processAlert_effect in H as (rm & st1 & Hfetch & H).
  destruct (fetchMarket_await_effect _ _ _ _ Hfetch)
    as (_ & _ & _ & _ & _ & _ & _ & evs1 & Ht1 & Hq1).
  assert (Forall well_addressed evs1) as Hw1.
  { eapply Forall_impl; [exact Hq1|]. by intros ev ->. }
  destruct rm as [market|e]; [|destruct H as [_ ->]; eauto].
  destruct H as (b & st2 & Heval & _ & _ & _ & _ & quiets & tail & Ht & Hq & Hshape).
  destruct (evaluateAlert_effect alert market st1) as (b' & st2' & Heval' & Ht2 & _).
  rewrite Heval in Heval'. injection Heval' as <- <-.
  assert (Forall well_addressed quiets) as Hwq.
  { eapply Forall_impl; [exact Hq|]. by intros []. }
  exists (evs1 ++ quiets ++ tail).
  split; [by rewrite Ht, Ht2, Ht1, <- app_assoc|].
  apply Forall_app. split; [done|]. apply Forall_app. split; [done|].
  destruct Hshape as [[-> _]|(_ & address & Haddr & Hshape)]; [constructor|].
  destruct Hshape as [(e & _ & ->)|[(e & _ & ->)|(_ & logs & -> & Hlogs)]];
    repeat (constructor; [by simpl|]); try constructor.
  eapply Forall_impl; [exact Hlogs|]. by intros ev [args ->].
Qed.

(** X13: every notification a run hands to the delivery provider has a
    recipient address that is not empty and the fixed sender of the
    application. *)
Theorem POST_notifications_addressed
    (request : Request) (st st' : State) (r : Completion Response) :
  POST env buildEmailHtml request st = (r, st') ->
  exists evs, trace st' = trace st ++ evs /\ Forall well_addressed evs.
Proof.
  intros H.
  refine (proj2 (POST_invariant (fun _ => True) well_addressed (fun _ => True)
                   processAlert_addresses (fun _ _ _ => Logic.I)
                   Logic.I (fun _ => Logic.I) _ request st st' r Logic.I H)).
  intros. by apply Forall_true.
Qed.

(** ** The flip preset inside the handler *)

Section Flip.

(** The market an alert watches, by alert identifier. *)
Variable slugOf : string -> string.

Lemma evaluateAlert_keeps_sync (alert : AlertRow) (market : MarketData) (st st' : State) (b : bool) :
  favorites_in_sync slugOf st ->
  marketCache st !! slugOf (alert_id alert) = Some (Fulfilled market) ->
  evaluateAlert alert market st = (Normal b, st') ->
  favorites_in_sync slugOf st' /\
  (b = true -> ~ (alert_type alert = PRESET /\ preset_type alert = Some FLIP)).
Proof.
  intros Hsync Hmarket. unfold evaluateAlert.
  destruct (alert_type alert) eqn:Htype, (preset_type alert) as [[]|] eqn:Hpreset.
  all: try (unfold evaluateWhalePreset; destruct (custom_settings alert); intros [= <- <-];
            (split; [done|]); intros _ [? ?]; congruence).
  - unfold evaluateFlipPreset. run.
    assert (Hprev : mjoin (favoriteOutcomeCache st !! alert_id alert) = favoriteOutcomeId market
                    \/ favoriteOutcomeCache st !! alert_id alert = None).
    { destruct (favoriteOutcomeCache st !! alert_id alert) as [f|] eqn:E; [left|by right].
      apply Hsync in E as (m & Hm & ->). rewrite Hmarket in Hm. by simplify_eq. }
    assert (Hsync' : favorites_in_sync slugOf
              {| marketCache := marketCache st;
                 favoriteOutcomeCache :=
                   <[alert_id alert := favoriteOutcomeId market]> (favoriteOutcomeCache st);
                 volumeCache := volumeCache st;
                 userEmailCache := userEmailCache st;
                 trace := trace st |}).
    { intros i f. simpl. destruct (decide (i = alert_id alert)) as [->|Hne].
      - rewrite lookup_insert_eq. intros [= <-]. eauto.
      - rewrite lookup_insert_ne by done. apply Hsync. }
    destruct (negb (truthy (favoriteOutcomeId market))
              || negb (truthy (mjoin (favoriteOutcomeCache st !! alert_id alert)))) eqn:Hfalsy;
      intros [= <- <-]; (split; [done|]); [done|].
    apply orb_false_iff in Hfalsy as [_ Hp]. apply negb_false_iff in Hp.
    destruct Hprev as [Hprev|Hprev].
    + rewrite Hprev, bool_decide_eq_true_2 by done. done.
    + by rewrite Hprev in Hp.
Qed.

Lemma processAlert_flips (alert : AlertRow) (n : nat) (st : State) (r : Completion nat)
    (st' : State) :
  market_slug alert = slugOf (alert_id alert) ->
  favorites_in_sync slugOf st ->
  processAlert env buildEmailHtml alert n st = (r, st') ->
  favorites_in_sync slugOf st' /\
  exists evs, trace st' = trace st ++ evs /\ Forall (fun ev => is_flip_email ev = false) evs.
Proof.
  intros Hslug Hsync H.
  apply processAlert_effect in H as (rm & st1 & Hfetch & H).
  destruct (fetchMarket_await_effect _ _ _ _ Hfetch)
    as (Hf1 & _ & _ & Hm1 & _ & Hfetched & _ & evs1 & Ht1 & Hq1).
  assert (Forall (fun ev => is_flip_email ev = false) evs1) as Hw1.
  { eapply Forall_impl; [exact Hq1|]. by intros ev ->. }
  assert (favorites_in_sync slugOf st1) as Hsync1.
  { intros i f Hi. rewrite Hf1 in Hi. apply Hsync in Hi as (m & Hm & ->). eauto. }
  destruct rm as [market|e]; [|destruct H as [_ ->]; eauto].
  destruct H as (b & st2 & Heval & Hm & Hf & _ & _ & quiets & tail & Ht & Hq & Hshape).
  destruct (evaluateAlert_effect alert market st1) as (b' & st2' & Heval' & Ht2 & _).
  rewrite Heval in Heval'. injection Heval' as <- <-.
  rewrite Hslug in Hfetched.
  destruct (evaluateAlert_keeps_sync _ _ _ _ _ Hsync1 Hfetched Heval) as [Hsync2 Hnoflip].
  split.
  { intros i f Hi. rewrite Hf in Hi. apply Hsync2 in Hi as (m & Hmi & ->).
    rewrite Hm. eauto. }
  assert (Forall (fun ev => is_flip_email ev = false) quiets) as Hwq.
  { eapply Forall_impl; [exact Hq|]. by intros []. }
  exists (evs1 ++ quiets ++ tail).
  split; [by rewrite Ht, Ht2, Ht1, <- app_assoc|].
  apply Forall_app. split; [done|]. apply Forall_app. split; [done|].
  destruct Hshape as [[-> _]|(-> & address & Haddr & Hshape)]; [constructor|].
  assert (String.prefix "PolyTrack FLIP alert for " (buildEmailSubject alert market) = false)
    as Hsubject.
  { unfold buildEmailSubject.
    destruct (alert_type alert), (preset_type alert) as [[]|]; try reflexivity.
    by destruct Hnoflip. }
  destruct Hshape as [(e & _ & ->)|[(e & _ & ->)|(_ & logs & -> & Hlogs)]];
    repeat (constructor; [by simpl|]); try constructor.
  eapply Forall_impl; [exact Hlogs|]. by intros ev [args ->].
Qed.

Lemma favorites_in_sync_emit (ev : Event) (st : State) :
  favorites_in_sync slugOf st -> favorites_in_sync slugOf (emit ev st).
Proof. done. Qed.

(** X14: in a process whose alerts keep their market, no sequence of runs of
    the handler ever sends a flip notification: the first evaluation of an
    alert has no recorded favorite, and every later one compares the
    memoized snapshot of the market with the favorite recorded from that
    same snapshot. *)
Theorem flip_never_notifies (requests : list Request) :
  (forall tr result alerts,
     selectAlerts env tr = Fulfilled result -> data result = Some alerts ->
     Forall (fun alert => market_slug alert = slugOf (alert_id alert)) alerts) ->
  Forall (fun ev => is_flip_email ev = false)
         (trace (serve env buildEmailHtml requests empty_state)).
Proof.
  intros Hstable.
  assert (Hgen : forall st,
    favorites_in_sync slugOf st ->
    Forall (fun ev => is_flip_email ev = false) (trace st) ->
    Forall (fun ev => is_flip_email ev = false)
           (trace (serve env buildEmailHtml requests st))).
  { induction requests as [|request later IH]; intros st Hsync Htrace; [done|].
    cbn [serve].
    destruct (POST env buildEmailHtml request st) as [r st'] eqn:Hrun.
    destruct (POST_invariant (favorites_in_sync slugOf)
                (fun ev => is_flip_email ev = false)
                (fun alert => market_slug alert = slugOf (alert_id alert))
                processAlert_flips favorites_in_sync_emit eq_refl (fun _ => eq_refl)
                Hstable request st st' r Hsync Hrun) as (Hsync' & evs & Ht & Hevs).
    apply IH; [done|]. simpl. rewrite Ht. by apply Forall_app. }
  apply Hgen; [|constructor]. intros i f Hi. unfold empty_state in Hi. simpl in Hi.
  by rewrite lookup_empty in Hi.
Qed.

End Flip.

(** ** The whale preset after its first observation *)

Lemma no_spike_without_rise (v previous : Q) :
  (0 <= previous)%Q -> (v <= previous)%Q -> num_gt v (previous * (12 # 10)) = false.
Proof.
  intros Hprevious Hv. destruct (num_gt v (previous * (12 # 10))) eqn:E; [|reflexivity].
  apply num_gt_lt in E. exfalso. lra.
Qed.

(** X15: with a recorded volume that is not negative, a snapshot whose total
    volume has not risen above the recorded one triggers the whale preset
    exactly when some outcome has a volume of at least 10000: the spike test
    does not fire without a rise. *)
Theorem evaluateWhalePreset_without_rise
    (alertId : string) (market : MarketData) (st : State) (previous : Q) :
  volumeCache st !! alertId = Some previous ->
  (0 <= previous)%Q ->
  (totalVolume market <= previous)%Q ->
  exists b,
    fst (evaluateWhalePreset alertId market st) = Normal b /\
    (b = true <-> largeTrade market).
Proof.
  intros Hprevious Hpositive Hrise. run. rewrite Hprevious. simpl.
  rewrite no_spike_without_rise by done. simpl.
  eexists. split; [reflexivity|]. apply simulatedLargeTrade_spec.
Qed.

End Loop.

(** * Failures of the load and of the market fetch *)

Section Edges.

Variable env : Collaborators.
Variable buildEmailHtml : AlertRow -> MarketData -> string.

(** X22: for an authorized request, a load of the alerts that fails is
    answered CRON_FAILED after logging the error, and a load that yields no
    row (an absent or an empty list) is answered with a count of zero; in
    both cases nothing but the load and the log happens and the caches and
    the state store are untouched. *)
Theorem POST_without_alerts (request : Request) (st : State) :
  truthy (CRON_SECRET env) = true ->
  bearerCredential request = CRON_SECRET env ->
  (forall e,
     selectAlerts env (trace st) = Rejected e \/
     (exists result, selectAlerts env (trace st) = Fulfilled result /\ error result = Some e) ->
     POST env buildEmailHtml request st
     = (Normal {| body := ErrorBody "CRON_FAILED"; status := 500 |},
        emit (ConsoleError [e]) (emit SelectAlerts st))) /\
  (forall result,
     selectAlerts env (trace st) = Fulfilled result -> error result = None ->
     data result = None \/ data result = Some [] ->
     POST env buildEmailHtml request st
     = (Normal {| body := SuccessBody 0; status := 200 |}, emit SelectAlerts st)).
Proof.
  intros Hsecret Hauth. split.
  - intros e Hfail. rewrite POST_effect, fetchActiveAlerts_effect by done.
    rewrite bool_decide_eq_true_2 by done.
    destruct Hfail as [->|(result & -> & ->)]; done.
  - intros result Hload Herror Hdata.
    rewrite POST_effect, fetchActiveAlerts_effect by done.
    rewrite bool_decide_eq_true_2 by done. rewrite Hload, Herror.
    by destruct Hdata as [->| ->].
Qed.

(** X23: when the first fetch of the market of an alert is rejected, the
    loop stops at that alert with the error of the fetch, after one request
    upstream and nothing else, and the rejection is what the market cache
    holds from then on. *)
Theorem market_failure_aborts_and_is_memoized
    (alert : AlertRow) (rest : list AlertRow) (processed : nat) (st : State) (e : Error) :
  marketCache st !! market_slug alert = None ->
  getMarketData env (trace st) (market_slug alert) = Rejected e ->
  exists st',
    processAlerts env buildEmailHtml (alert :: rest) processed st = (Throw e, st') /\
    trace st' = trace st ++ [GetMarketData (market_slug alert)] /\
    marketCache st' = <[market_slug alert := Rejected e]> (marketCache st) /\
    favoriteOutcomeCache st' = favoriteOutcomeCache st /\
    volumeCache st' = volumeCache st /\
    userEmailCache st' = userEmailCache st.
Proof.
  intros Hmiss Hrejected.
  destruct (fetchMarket_miss env _ st Hmiss) as (st' & Hrun & Hm & Hu & Hv & Hf & Ht).
  exists st'. rewrite Hrejected in Hrun, Hm. split_and!; try done.
  cbn [processAlerts]. erewrite bind_throw; [done|].
  by erewrite bind_normal by exact Hrun.
Qed.

End Edges.

(** * Sample runs of the handler *)

(** Two whale alerts on a market with a large trade: two notifications, two
    timestamp updates, a count of two. *)
Lemma POST_reports_dispatches_witness :
  200 = 200 /\
  exists evs,
    trace (snd (POST healthy_env plain_html authorized_request empty_state))
      = trace empty_state ++ evs /\
    2 = count_events is_dispatch evs /\
    2 = count_events is_persist evs.
Proof.
  apply (POST_reports_dispatches healthy_env plain_html authorized_request empty_state).
  vm_compute. reflexivity.
Defined.

(** The first whale evaluation of an alert on the busy market. *)
Lemma evaluateAlert_frame_witness :
  let st' := snd (evaluateAlert (whale_alert "alert-1" "user-1") busy_market after_failed_run) in
  trace st' = trace after_failed_run /\
  marketCache st' = marketCache after_failed_run /\
  userEmailCache st' = userEmailCache after_failed_run /\
  (forall other, other <> "alert-1" ->
     volumeCache st' !! other = volumeCache after_failed_run !! other /\
     favoriteOutcomeCache st' !! other = favoriteOutcomeCache after_failed_run !! other) /\
  (alert_type (whale_alert "alert-1" "user-1") = CUSTOM -> st' = after_failed_run).
Proof.
  apply (evaluateAlert_frame (whale_alert "alert-1" "user-1") busy_market after_failed_run _
           (fst (evaluateAlert (whale_alert "alert-1" "user-1") busy_market after_failed_run))).
  reflexivity.
Defined.

(** With the sample secret the handler answers; it does not throw. *)
Lemma POST_always_answers_witness :
  exists response st',
    POST healthy_env plain_html authorized_request empty_state = (Normal response, st') /\
    ((response = {| body := ErrorBody "UNAUTHORIZED"; status := 401 |} /\ st' = empty_state) \/
     (exists k, response = {| body := SuccessBody k; status := 200 |}) \/
     response = {| body := ErrorBody "CRON_FAILED"; status := 500 |}).
Proof.
  apply (proj1 (POST_always_answers healthy_env plain_html authorized_request empty_state)).
  reflexivity.
Defined.

Lemma POST_keeps_lookup_caches_witness :
  caches_kept after_failed_run
    (snd (POST healthy_env plain_html authorized_request after_failed_run)).
Proof.
  apply (POST_keeps_lookup_caches healthy_env plain_html authorized_request after_failed_run
           _ (fst (POST healthy_env plain_html authorized_request after_failed_run))).
  by destruct (POST healthy_env plain_html authorized_request after_failed_run).
Defined.

(** After a failed fetch of the market, a later loop fails at once although
    the market service would answer now. *)
Lemma rejected_market_is_not_retried_witness :
  processAlerts healthy_env plain_html two_alerts 0 after_failed_run
    = (Throw "market not found", after_failed_run) /\
  (forall request r st',
     POST healthy_env plain_html request after_failed_run = (r, st') ->
     marketCache st' !! "election" = Some (Rejected "market not found")).
Proof.
  apply (rejected_market_is_not_retried healthy_env plain_html
           (whale_alert "alert-1" "user-1") [whale_alert "alert-2" "user-2"] 0
           after_failed_run "market not found").
  vm_compute. reflexivity.
Defined.

Lemma POST_notifications_addressed_witness :
  exists evs,
    trace (snd (POST healthy_env plain_html authorized_request empty_state))
      = trace empty_state ++ evs /\
    Forall well_addressed evs.
Proof.
  apply (POST_notifications_addressed healthy_env plain_html authorized_request empty_state
           _ (fst (POST healthy_env plain_html authorized_request empty_state))).
  by destruct (POST healthy_env plain_html authorized_request empty_state).
Defined.

Lemma flip_never_notifies_witness :
  Forall (fun ev => is_flip_email ev = false)
         (trace (serve flip_env plain_html
                   [authorized_request; authorized_request; authorized_request]
                   empty_state)).
Proof.
  apply (flip_never_notifies flip_env plain_html (fun _ => "election")).
  intros tr result alerts [= <-] [= <-]. by repeat constructor.
Defined.

(** Three runs over the two flip alerts: the market is fetched once, no
    recipient is looked up and nothing is sent. *)
Example flip_runs :
  trace (serve flip_env plain_html
           [authorized_request; authorized_request; authorized_request] empty_state)
  = [SelectAlerts; GetMarketData "election"; SelectAlerts; SelectAlerts].
Proof. vm_compute. reflexivity. Qed.

(** A second whale evaluation after a first one at volume 100, on a snapshot
    of volume 90 without large outcome. *)
Lemma evaluateWhalePreset_without_rise_witness :
  exists b,
    fst (evaluateWhalePreset "alert-1" (market_with_volume 90) after_first_whale) = Normal b /\
    (b = true <-> largeTrade (market_with_volume 90)).
Proof.
  apply (evaluateWhalePreset_without_rise "alert-1" (market_with_volume 90)
           after_first_whale 100).
  - vm_compute. reflexivity.
  - vm_compute. discriminate.
  - vm_compute. discriminate.
Defined.

(** * Properties of the rule builder *)

Lemma handleConditionChange_ids
    (id : string) (patch : AlertBuilder.ConditionPatch)
    (prev : list AlertBuilder.ConditionDraft) :
  AlertBuilder.draft_id <$> AlertBuilder.handleConditionChange id patch prev
  = AlertBuilder.draft_id <$> prev.
Proof.
  unfold AlertBuilder.handleConditionChange. rewrite <- list_fmap_compose.
  apply list_fmap_ext. intros i c _. simpl.
  by destruct (String.eqb (AlertBuilder.draft_id c) id).
Qed.

Lemma filter_other_length (id : string) (l : list AlertBuilder.ConditionDraft) :
  NoDup (AlertBuilder.draft_id <$> l) ->
  length l
  <= S (length (List.filter
                  (fun condition => negb (String.eqb (AlertBuilder.draft_id condition) id)) l)).
Proof.
  induction l as [|c l IH]; simpl; [lia|].
  intros [Hnotin Hnodup]%NoDup_cons.
  destruct (String.eqb_spec (AlertBuilder.draft_id c) id) as [Heq|Hne]; simpl.
  - assert (List.filter
              (fun condition => negb (String.eqb (AlertBuilder.draft_id condition) id)) l = l)
      as ->; [|lia].
    clear IH Hnodup. induction l as [|d l IH]; [done|]. simpl.
    destruct (String.eqb_spec (AlertBuilder.draft_id d) id) as [Heq'|Hne']; simpl.
    + exfalso. apply Hnotin. rewrite Heq, <- Heq'. simpl. by left.
    + f_equal. apply IH. intros Hin. apply Hnotin. simpl. by right.
  - specialize (IH Hnodup). lia.
Qed.

Lemma filter_other_NoDup (id : string) (l : list AlertBuilder.ConditionDraft) :
  NoDup (AlertBuilder.draft_id <$> l) ->
  NoDup (AlertBuilder.draft_id
         <$> List.filter
               (fun condition => negb (String.eqb (AlertBuilder.draft_id condition) id)) l).
Proof.
  induction l as [|c l IH]; simpl; [done|].
  intros [Hnotin Hnodup]%NoDup_cons.
  destruct (negb (String.eqb (AlertBuilder.draft_id c) id)); simpl; [|auto].
  apply NoDup_cons. split; [|auto].
  intros Hin. apply Hnotin.
  apply list_elem_of_fmap in Hin as (d & -> & Hd).
  apply list_elem_of_fmap. exists d. split; [done|].
  apply list_elem_of_In in Hd. apply List.filter_In in Hd as [Hd _].
  by apply list_elem_of_In.
Qed.

Lemma update_keeps_conditions
    (action : AlertBuilder.Action) (conditions : list AlertBuilder.ConditionDraft) :
  conditions <> [] ->
  NoDup (AlertBuilder.draft_id <$> conditions) ->
  match action with
  | AlertBuilder.Add newId => newId ∉ AlertBuilder.draft_id <$> conditions
  | _ => True
  end ->
  AlertBuilder.update conditions action <> [] /\
  NoDup (AlertBuilder.draft_id <$> AlertBuilder.update conditions action).
Proof.
  intros Hne Hnodup Hfresh. destruct action as [id patch|newId|id]; simpl.
  - rewrite handleConditionChange_ids. split; [|done].
    intros Hnil. apply (f_equal length) in Hnil.
    unfold AlertBuilder.handleConditionChange in Hnil. rewrite length_fmap in Hnil.
    by destruct conditions.
  - unfold AlertBuilder.handleAddCondition. split; [by destruct conditions|].
    rewrite fmap_app. apply NoDup_app. split; [done|]. split; [|apply NoDup_singleton].
    intros x Hx Hin. apply list_elem_of_singleton in Hin. simpl in Hin. by subst.
  - unfold AlertBuilder.handleRemoveCondition.
    destruct (Nat.eqb_spec (length conditions) 1) as [Hone|Hmore]; [done|].
    split; [|by apply filter_other_NoDup].
    pose proof (filter_other_length id conditions Hnodup) as Hlen.
    intros Hnil. rewrite Hnil in Hlen. simpl in Hlen.
    destruct conditions as [|c [|d l]]; simpl in *; [done|done|lia].
Qed.

(** X16: in the rule builder, as long as the identifiers of the conditions
    are distinct and every added condition gets a new one, no sequence of
    changes, additions and removals empties the list of conditions: the rule
    written to the form always has at least one condition. *)
Theorem builder_keeps_a_condition
    (ruleOperator : string) (actions : list AlertBuilder.Action)
    (drafts : list AlertBuilder.ConditionDraft) :
  drafts <> [] ->
  NoDup (AlertBuilder.draft_id <$> drafts) ->
  AlertBuilder.fresh_identifiers actions drafts ->
  foldl AlertBuilder.update drafts actions <> [] /\
  NoDup (AlertBuilder.draft_id <$> foldl AlertBuilder.update drafts actions) /\
  exists c cs,
    conditions (AlertBuilder.currentRule ruleOperator
                  (foldl AlertBuilder.update drafts actions))
    = Some (c :: cs).
Proof.
  revert drafts. induction actions as [|action later IH]; intros drafts Hne Hnodup.
  - intros _. simpl. split; [done|]. split; [done|].
    destruct drafts as [|c cs]; [done|]. simpl. eauto.
  - intros [Hfresh Hlater]. simpl.
    destruct (update_keeps_conditions action drafts Hne Hnodup) as [Hne' Hnodup'].
    { by destruct action. }
    by apply IH.
Qed.

(** Removal empties a list whose two conditions share an identifier: the
    identifiers have to be distinct. *)
Example remove_with_shared_identifier :
  AlertBuilder.handleRemoveCondition "a"
    [AlertBuilder.defaultCondition "a"; AlertBuilder.defaultCondition "a"] = [].
Proof. reflexivity. Qed.

(** * Properties of the dashboard actions and of the payment confirmation *)

Section Site.

Variable select_is_pro : Dashboard.Site -> string -> option bool.
Variable count_alerts : Dashboard.Site -> string -> option nat.
Variable insert_accepted : Dashboard.Site -> Dashboard.StoredAlert -> bool.
Variable gen_random_uuid : Dashboard.Site -> string.
Variable update_accepted : Dashboard.Site -> string -> bool.
Variable delete_accepted : Dashboard.Site -> string -> string -> bool.
Variable JSON_parse : string -> Completion Dashboard.Json.

#[local] Abbreviation canCreateAlert := (Dashboard.canCreateAlert select_is_pro count_alerts).
#[local] Abbreviation handle :=
  (Dashboard.handle select_is_pro count_alerts insert_accepted gen_random_uuid
     update_accepted delete_accepted JSON_parse).
#[local] Abbreviation Effect :=
  (Dashboard.Effect select_is_pro count_alerts insert_accepted).

Lemma alerts_of_app (userId : string) (rows rows' : list Dashboard.StoredAlert) :
  Dashboard.alerts_of userId (rows ++ rows')
  = Dashboard.alerts_of userId rows ++ Dashboard.alerts_of userId rows'.
Proof. apply List.filter_app. Qed.

Lemma alerts_of_filter_length (userId : string) (keep : Dashboard.StoredAlert -> bool) (rows : list Dashboard.StoredAlert) :
  length (Dashboard.alerts_of userId (List.filter keep rows))
  <= length (Dashboard.alerts_of userId rows).
Proof.
  unfold Dashboard.alerts_of. induction rows as [|row rows IH]; [done|]. simpl.
  destruct (keep row); simpl; destruct (String.eqb (Dashboard.user_id row) userId); simpl; lia.
Qed.

(** The rows of a user after an insert. *)
Lemma alerts_of_insert (site : Dashboard.Site) (row : Dashboard.StoredAlert) (userId : string) :
  Dashboard.alerts_of userId (Dashboard.alerts (Dashboard.insert insert_accepted row site))
  = Dashboard.alerts_of userId (Dashboard.alerts site)
    ++ (if insert_accepted site row && String.eqb (Dashboard.user_id row) userId then [row] else []).
Proof.
  unfold Dashboard.insert. simpl. destruct (insert_accepted site row); simpl.
  - rewrite alerts_of_app. unfold Dashboard.alerts_of at 2. simpl.
    by destruct (String.eqb (Dashboard.user_id row) userId).
  - by rewrite app_nil_r.
Qed.

Lemma filter_all (rows : list Dashboard.StoredAlert) : rows = List.filter (fun _ => true) rows.
Proof. induction rows as [|row rows IH]; [done|]. simpl. by rewrite <- IH. Qed.

Lemma Effect_same_tables (site site' : Dashboard.Site) :
  Dashboard.profiles site' = Dashboard.profiles site ->
  Dashboard.alerts site' = Dashboard.alerts site ->
  Effect site site'.
Proof.
  intros Hp Ha. apply (Dashboard.effect_rows_removed _ _ _ _ _ (fun _ => true)); [done|].
  rewrite Ha. apply filter_all.
Qed.

Lemma Effect_none (site : Dashboard.Site) : Effect site site.
Proof. by apply Effect_same_tables. Qed.

(** What [createCustomAlert] lets through is an object whose conditions have
    a truthy length; read as a rule it has at least one condition. *)
Lemma accepted_settings (rule : Dashboard.Json) :
  Dashboard.json_truthy rule = true ->
  Dashboard.length_truthy (Dashboard.get_conditions rule) = true ->
  exists fields,
    rule = Dashboard.JObject fields /\
    Dashboard.length_truthy (Dashboard.member "conditions" fields) = true /\
    forall r, Dashboard.as_rule (Dashboard.JObject fields) = Some r ->
              exists c cs, conditions r = Some (c :: cs).
Proof.
  intros _ Hlength. destruct rule as [| | | | |fields]; try discriminate.
  exists fields. split; [done|]. split; [exact Hlength|].
  simpl in Hlength. intros r. unfold Dashboard.as_rule.
  destruct (Dashboard.as_string _) as [o|]; [|done]. simpl.
  destruct (Dashboard.member "conditions" fields) as [[| | | |items|]|]; try done.
  destruct (mapM Dashboard.as_condition items) as [cs|] eqn:Hcs; [|done]. simpl.
  intros [= <-]. simpl. apply mapM_Some in Hcs.
  destruct Hcs as [|item c items cs _ _]; [done|by eauto].
Qed.

Lemma handle_effect (site : Dashboard.Site) (request : Dashboard.Request) :
  Effect site (handle site request).
Proof.
  destruct request as [user form|user form|user form|subscriptionID user userError]; simpl.
  - unfold Dashboard.createPresetAlert.
    destruct user as [userId|]; [|apply Effect_none].
    set (slug := js_trim _).
    destruct (Dashboard.preset_of (form !! "preset_type")) as [preset|];
      [|apply Effect_none].
    destruct (is_empty slug) eqn:Hslug; [apply Effect_none|].
    destruct (canCreateAlert site userId) eqn:Hallowed; [|apply Effect_none].
    simpl. eapply (Dashboard.effect_row_added _ _ _ _ _ site); try done.
    split; [by destruct slug|done].
  - unfold Dashboard.createCustomAlert.
    destruct user as [userId|]; [|apply Effect_none].
    set (slug := js_trim _).
    destruct (form !! "custom_settings") as [[rawRule|]|]; try apply Effect_none.
    destruct (is_empty slug) eqn:Hslug; [apply Effect_none|].
    destruct (is_empty rawRule); [apply Effect_none|]. simpl.
    destruct (JSON_parse rawRule) as [rule|e]; [|by apply Effect_same_tables].
    destruct (Dashboard.json_truthy rule) eqn:Htruthy; [|apply Effect_none].
    destruct (Dashboard.length_truthy (Dashboard.get_conditions rule)) eqn:Hlength;
      [|apply Effect_none].
    simpl. destruct (canCreateAlert site userId) eqn:Hallowed; [|apply Effect_none].
    simpl. eapply (Dashboard.effect_row_added _ _ _ _ _ site); try done.
    split; [by destruct slug|]. simpl. split; [done|].
    destruct (accepted_settings rule Htruthy Hlength) as (fields & -> & Hfields & Hrule).
    by exists fields.
  - unfold Dashboard.deleteAlert.
    destruct user as [userId|]; [|apply Effect_none].
    destruct (form !! "alert_id") as [[alertId|]|]; try apply Effect_none.
    destruct (is_empty alertId); [apply Effect_none|].
    simpl. destruct (delete_accepted site alertId userId);
      [by eapply Dashboard.effect_rows_removed|by apply Effect_same_tables].
  - unfold Dashboard.confirmSubscription.
    destruct subscriptionID as [[id|]|]; try apply Effect_none.
    destruct (is_empty id); [apply Effect_none|].
    destruct userError, user as [userId|]; try apply Effect_none.
    destruct (update_accepted site userId); [|apply Effect_none].
    simpl. by eapply Dashboard.effect_upgraded.
Qed.

Lemma pro_alter (site site' : Dashboard.Site) (userId other : string) (profile : Dashboard.Profile) :
  Dashboard.profiles site' = alter (fun _ => profile) userId (Dashboard.profiles site) ->
  Dashboard.is_pro profile = true ->
  Dashboard.pro site' other = false -> Dashboard.pro site other = false.
Proof.
  unfold Dashboard.pro. intros -> Hpro.
  destruct (decide (other = userId)) as [->|Hne].
  - rewrite lookup_alter_eq. destruct (Dashboard.profiles site !! userId); simpl; [|done].
    by rewrite Hpro.
  - by rewrite lookup_alter_ne.
Qed.

Lemma Effect_keeps_quota (site site' : Dashboard.Site) :
  Dashboard.answers_from_tables select_is_pro count_alerts ->
  Effect site site' ->
  Dashboard.within_quota site -> Dashboard.within_quota site'.
Proof.
  intros Hanswers Heffect Hquota other Hfree.
  destruct Heffect as [keep Hp Ha|site1 row Hp1 Ha1 Hp Ha Hallowed _|userId profile Hp Hpro Ha].
  - rewrite Ha. etrans; [apply alerts_of_filter_length|].
    apply Hquota. unfold Dashboard.pro in *. by rewrite <- Hp.
  - assert (Dashboard.pro site other = false) as Hfree'
      by (unfold Dashboard.pro in *; by rewrite <- Hp).
    rewrite Ha, alerts_of_insert, Ha1, length_app.
    destruct (insert_accepted site1 row && String.eqb (Dashboard.user_id row) other) eqn:Hadded;
      [|specialize (Hquota other Hfree'); simpl; lia].
    apply andb_true_iff in Hadded as [_ Hsame%String.eqb_eq]. subst other.
    unfold Dashboard.canCreateAlert in Hallowed.
    destruct (Hanswers site1 (Dashboard.user_id row)) as [Hsel Hcnt].
    rewrite Hsel, Hcnt, Hp1, Ha1 in Hallowed. unfold Dashboard.pro in Hfree'. rewrite Hfree' in Hallowed.
    simpl in Hallowed. apply Nat.ltb_lt in Hallowed.
    unfold Dashboard.MAX_FREE_ALERTS in *. simpl. lia.
  - rewrite Ha. apply Hquota. by eapply pro_alter.
Qed.

(** X17: as long as the store answers the two queries of [canCreateAlert]
    from its tables, no sequence of dashboard actions and payment
    confirmations, by whatever users, brings a free user above one alert. *)
Theorem quota_kept (requests : list Dashboard.Request) (site : Dashboard.Site) :
  Dashboard.answers_from_tables select_is_pro count_alerts ->
  Dashboard.within_quota site ->
  Dashboard.within_quota (foldl handle site requests).
Proof.
  intros Hanswers. revert site.
  induction requests as [|request later IH]; intros site Hquota; [done|].
  simpl. apply IH. eapply Effect_keeps_quota; [done|apply handle_effect|done].
Qed.



(** X19: the page and the actions agree on the quota: with a store that
    answers from its tables, the page reports the limit as reached exactly
    when [canCreateAlert] refuses the user. *)
Theorem page_agrees_with_actions (site : Dashboard.Site) (userId : string) :
  Dashboard.answers_from_tables select_is_pro count_alerts ->
  Dashboard.alertLimitReached (Dashboard.profiles site !! userId)
    (Dashboard.alerts_of userId (Dashboard.alerts site))
  = negb (canCreateAlert site userId).
Proof.
  intros Hanswers. unfold Dashboard.alertLimitReached, Dashboard.canCreateAlert.
  destruct (Hanswers site userId) as [-> ->].
  destruct (default false (Dashboard.is_pro <$> Dashboard.profiles site !! userId)); [done|].
  simpl. unfold Dashboard.MAX_FREE_ALERTS.
  by destruct (Dashboard.alerts_of userId (Dashboard.alerts site)).
Qed.

(** X20: a request changes the alerts of its session user only: the alerts
    of every other user are what they were, whatever identifiers the forms
    name. *)
Theorem requests_touch_own_alerts
    (site : Dashboard.Site) (request : Dashboard.Request) (other : string) :
  Dashboard.session request <> Some other ->
  Dashboard.alerts_of other (Dashboard.alerts (handle site request))
  = Dashboard.alerts_of other (Dashboard.alerts site).
Proof.
  assert (Hinsert : forall userId row s,
    Some userId <> Some other -> Dashboard.user_id row = userId ->
    Dashboard.alerts_of other (Dashboard.alerts (Dashboard.insert insert_accepted row s))
    = Dashboard.alerts_of other (Dashboard.alerts s)).
  { intros userId row s Hne Hrow. rewrite alerts_of_insert.
    destruct (String.eqb_spec (Dashboard.user_id row) other) as [Heq|_].
    - congruence.
    - by rewrite andb_false_r, app_nil_r. }
  destruct request as [user form|user form|user form|subscriptionID user userError];
    simpl; intros Hother.
  - unfold Dashboard.createPresetAlert. destruct user as [userId|]; [|done].
    destruct (Dashboard.preset_of _); [|done].
    destruct (is_empty _); [done|]. destruct (negb _); [done|].
    simpl. by eapply Hinsert.
  - unfold Dashboard.createCustomAlert. destruct user as [userId|]; [|done].
    destruct (form !! "custom_settings") as [[rawRule|]|]; try done.
    destruct (is_empty _ || is_empty rawRule); [done|].
    destruct (JSON_parse rawRule) as [rule|e]; [|done].
    destruct (negb _ || negb _); [done|].
    destruct (negb _); [done|]. simpl. by eapply Hinsert.
  - unfold Dashboard.deleteAlert. destruct user as [userId|]; [|done].
    destruct (form !! "alert_id") as [[alertId|]|]; try done.
    destruct (is_empty alertId); [done|]. simpl.
    destruct (delete_accepted site alertId userId); [|done].
    unfold Dashboard.alerts_of. induction (Dashboard.alerts site) as [|row rows IH]; [done|].
    simpl. destruct (String.eqb_spec (Dashboard.user_id row) other) as [Heq|Hne].
    + assert (String.eqb (Dashboard.user_id row) userId = false) as ->
        by (apply String.eqb_neq; congruence).
      rewrite andb_false_r. simpl. rewrite (proj2 (String.eqb_eq _ _) Heq). by rewrite IH.
    + destruct (negb _); simpl; [|done].
      by rewrite (proj2 (String.eqb_neq _ _) Hne).
  - unfold Dashboard.confirmSubscription.
    destruct subscriptionID as [[id|]|]; try done.
    destruct (is_empty id); [done|].
    destruct userError, user as [userId|]; try done.
    by destruct (update_accepted site userId).
Qed.

(** X21: the payment confirmation takes any text that is not empty as a
    subscription: for a signed-in user with a profile, when the store accepts
    the update, the answer is the confirmation, the profile is pro with that
    subscription, and [canCreateAlert] holds from then on whatever the number
    of alerts. *)
Theorem confirmation_unlocks
    (site : Dashboard.Site) (userId id : string) (profile : Dashboard.Profile) :
  Dashboard.answers_from_tables select_is_pro count_alerts ->
  id <> EmptyString ->
  Dashboard.profiles site !! userId = Some profile ->
  update_accepted site userId = true ->
  exists site',
    Dashboard.confirmSubscription update_accepted (Some (Dashboard.Text id))
      (Some userId) None site = (Dashboard.Confirmed, site') /\
    Dashboard.profiles site' !! userId
      = Some {| Dashboard.is_pro := true; Dashboard.subscription_id := Some id |} /\
    Dashboard.alerts site' = Dashboard.alerts site /\
    canCreateAlert site' userId = true.
Proof.
  intros Hanswers Hid Hprofile Haccepted. unfold Dashboard.confirmSubscription.
  destruct id as [|c id]; [done|]. simpl. rewrite Haccepted.
  eexists. split; [reflexivity|]. simpl.
  assert (Hlookup : alter (fun _ => {| Dashboard.is_pro := true;
                                       Dashboard.subscription_id := Some (String c id) |})
                          userId (Dashboard.profiles site) !! userId
                    = Some {| Dashboard.is_pro := true;
                              Dashboard.subscription_id := Some (String c id) |}).
  { by rewrite lookup_alter_eq, Hprofile. }
  split; [exact Hlookup|]. split; [done|].
  unfold Dashboard.canCreateAlert.
  match goal with
  | |- context [select_is_pro ?s userId] => destruct (Hanswers s userId) as [-> _]
  end.
  simpl. by rewrite Hlookup.
Qed.

End Site.

(** * Sample runs of the builder and of the site *)

Lemma builder_keeps_a_condition_witness :
  foldl AlertBuilder.update sample_drafts sample_actions <> [] /\
  NoDup (AlertBuilder.draft_id <$> foldl AlertBuilder.update sample_drafts sample_actions) /\
  exists c cs,
    conditions (AlertBuilder.currentRule "AND"
                  (foldl AlertBuilder.update sample_drafts sample_actions))
    = Some (c :: cs).
Proof.
  apply (builder_keeps_a_condition "AND" sample_actions sample_drafts).
  - discriminate.
  - simpl. apply NoDup_singleton.
  - simpl. repeat split.
    intros Hin. apply list_elem_of_singleton in Hin. discriminate.
Defined.

(** The only condition cannot be removed; once a second one exists the
    first can. *)
Example builder_run :
  foldl AlertBuilder.update sample_drafts sample_actions
  = [ {| AlertBuilder.draft_id := "c2"; AlertBuilder.draft_metric := "price";
         AlertBuilder.draft_operator := "lt"; AlertBuilder.draft_value := 1 # 10 |} ].
Proof. vm_compute. reflexivity. Qed.

Lemma quota_kept_witness :
  Dashboard.within_quota
    (foldl (Dashboard.handle table_is_pro table_count accept_row row_identifier
              accept_update accept_delete sample_parse)
           sample_site sample_requests).
Proof.
  apply (quota_kept table_is_pro table_count accept_row row_identifier accept_update accept_delete
           sample_parse sample_requests sample_site).
  - intros site userId. split; reflexivity.
  - intros userId _. simpl. lia.
Defined.


(** The free user gets the first alert, with its slug trimmed, is refused
    the second, and gets it once the subscription is confirmed. *)
Example site_run :
  Dashboard.market_slug
    <$> Dashboard.alerts
          (foldl (Dashboard.handle table_is_pro table_count accept_row row_identifier
                    accept_update accept_delete sample_parse)
                 sample_site (take 2 sample_requests))
  = ["trump-wins"] /\
  Dashboard.market_slug
    <$> Dashboard.alerts
          (foldl (Dashboard.handle table_is_pro table_count accept_row row_identifier
                    accept_update accept_delete sample_parse)
                 sample_site sample_requests)
  = ["trump-wins"; "rain-tomorrow"].
Proof. split; vm_compute; reflexivity. Qed.

(** The subscriber's rule is stored, and so is the object whose conditions
    are the string [abc], which does not read as a rule; [null] and the text
    that does not parse write nothing, the second after a log.  The alert of
    the other user survives the delete that names it. *)
Example custom_run :
  let site :=
    foldl (Dashboard.handle table_is_pro table_count accept_row row_identifier
             accept_update accept_delete sample_parse)
          busy_site custom_requests in
  Dashboard.alert_id <$> Dashboard.alerts site = ["row-0"; "row-2"; "row-3"] /\
  Dashboard.custom_settings <$> Dashboard.alerts site
    = [None; Some rule_value; Some odd_value] /\
  Dashboard.as_rule rule_value
    = Some {| rule_operator := "AND";
              conditions :=
                Some [ {| metric := "volume"; cond_operator := "gt"; value := 500 |} ] |} /\
  Dashboard.as_rule odd_value = None /\
  Dashboard.console site = [["Invalid rule payload"; "Unexpected token"]].
Proof. repeat split; vm_compute; reflexivity. Qed.

Lemma page_agrees_with_actions_witness :
  Dashboard.alertLimitReached (Dashboard.profiles sample_site !! "user-1")
    (Dashboard.alerts_of "user-1" (Dashboard.alerts sample_site))
  = negb (Dashboard.canCreateAlert table_is_pro table_count sample_site "user-1").
Proof.
  apply (page_agrees_with_actions table_is_pro table_count sample_site "user-1").
  intros site userId. split; reflexivity.
Defined.

(** The subscriber names the alert of the other user in a delete. *)
Lemma requests_touch_own_alerts_witness :
  Dashboard.alerts_of "user-2"
    (Dashboard.alerts
       (Dashboard.handle table_is_pro table_count accept_row row_identifier
          accept_update accept_delete sample_parse busy_site
          (Dashboard.DeleteAlert (Some "user-1") {[ "alert_id" := Dashboard.Text "row-0" ]})))
  = Dashboard.alerts_of "user-2" (Dashboard.alerts busy_site).
Proof.
  apply (requests_touch_own_alerts table_is_pro table_count accept_row row_identifier
           accept_update accept_delete sample_parse busy_site
           (Dashboard.DeleteAlert (Some "user-1") {[ "alert_id" := Dashboard.Text "row-0" ]})
           "user-2").
  simpl. discriminate.
Defined.

(** The alert named in that delete exists, and the same delete by its owner
    removes it. *)
Example delete_by_owner :
  Dashboard.alert_id <$> Dashboard.alerts_of "user-2" (Dashboard.alerts busy_site)
    = ["row-0"] /\
  Dashboard.alert_id
    <$> Dashboard.alerts
          (Dashboard.handle table_is_pro table_count accept_row row_identifier
             accept_update accept_delete sample_parse busy_site
             (Dashboard.DeleteAlert (Some "user-2")
                {[ "alert_id" := Dashboard.Text "row-0" ]}))
    = ["row-1"] /\
  Dashboard.alert_id
    <$> Dashboard.alerts
          (Dashboard.handle table_is_pro table_count accept_row row_identifier
             accept_update accept_delete sample_parse busy_site
             (Dashboard.DeleteAlert (Some "user-1")
                {[ "alert_id" := Dashboard.Text "row-0" ]}))
    = ["row-0"; "row-1"].
Proof. repeat split; vm_compute; reflexivity. Qed.

Lemma confirmation_unlocks_witness :
  exists site',
    Dashboard.confirmSubscription accept_update (Some (Dashboard.Text "I-123"))
      (Some "user-1") None sample_site = (Dashboard.Confirmed, site') /\
    Dashboard.profiles site' !! "user-1"
      = Some {| Dashboard.is_pro := true; Dashboard.subscription_id := Some "I-123" |} /\
    Dashboard.alerts site' = Dashboard.alerts sample_site /\
    Dashboard.canCreateAlert table_is_pro table_count site' "user-1" = true.
Proof.
  apply (confirmation_unlocks table_is_pro table_count accept_update sample_site
           "user-1" "I-123"
           {| Dashboard.is_pro := false; Dashboard.subscription_id := None |}).
  - intros site userId. split; reflexivity.
  - discriminate.
  - reflexivity.
  - reflexivity.
Defined.

(** A load that fails and a load that finds no alert. *)
Lemma POST_without_alerts_witness :
  POST failing_load_env plain_html authorized_request empty_state
    = (Normal {| body := ErrorBody "CRON_FAILED"; status := 500 |},
       emit (ConsoleError ["connection refused"]) (emit SelectAlerts empty_state)) /\
  POST no_alert_env plain_html authorized_request empty_state
    = (Normal {| body := SuccessBody 0; status := 200 |}, emit SelectAlerts empty_state).
Proof.
  split.
  - refine (proj1 (POST_without_alerts failing_load_env plain_html authorized_request
                     empty_state _ _) "connection refused" _).
    + reflexivity.
    + vm_compute. reflexivity.
    + right. eexists. split; reflexivity.
  - refine (proj2 (POST_without_alerts no_alert_env plain_html authorized_request
                     empty_state _ _) {| data := Some []; error := None |} _ _ _).
    + reflexivity.
    + vm_compute. reflexivity.
    + reflexivity.
    + reflexivity.
    + by right.
Defined.

Lemma market_failure_aborts_and_is_memoized_witness :
  exists st',
    processAlerts outage_env plain_html two_alerts 0 empty_state
      = (Throw "market not found", st') /\
    trace st' = trace empty_state ++ [GetMarketData "election"] /\
    marketCache st' = <["election" := Rejected "market not found"]> (marketCache empty_state) /\
    favoriteOutcomeCache st' = favoriteOutcomeCache empty_state /\
    volumeCache st' = volumeCache empty_state /\
    userEmailCache st' = userEmailCache empty_state.
Proof.
  apply (market_failure_aborts_and_is_memoized outage_env plain_html
           (whale_alert "alert-1" "user-1") [whale_alert "alert-2" "user-2"] 0
           empty_state "market not found").
  - reflexivity.
  - reflexivity.
Defined.
